(** * python-miio: capability descriptors and the gateway sub-device proxy

    A shallow embedding of [miio/descriptors.py] and of
    [miio/integrations/lumi/gateway/devices/subdevice.py].

    Python objects are embedded as follows.
    - Dynamically typed values ([None], [bool], [int], [float], [str],
      [list]) are the inductive type [value]; floats are IEEE 754 binary64
      numbers, taken from the Standard Library's [SpecFloat].
    - Exceptions are the type [exn]; a call returns [Ok v] or [Raise e].
    - A [dict] whose iteration order is observable (the batched-fetch table,
      the push-event table, the observer registry) is an association list
      with Python's insertion-order semantics; the property cache, whose
      order no operation depends on, is a [gmap].
    - Methods of [SubDevice] are computations in a state-and-exception monad
      over a [World]: the proxy object, the state of the external
      collaborators (gateway transport, push server, observers) and the
      trace of every externally visible effect (log records, transport
      calls, subscription requests, observer invocations).
    - [async] methods are embedded sequentially: each [await] is a call that
      completes before the next statement runs. *)

From Stdlib Require Import ZArith SpecFloat Ascii.
From stdpp Require Import base option list strings gmap.

Set Warnings "-register-all".
Local Open Scope string_scope.
Local Open Scope list_scope.
Local Open Scope Z_scope.

(** ** Python values *)

Module Py.

(** Exceptions.  [BuiltinError] stands for whatever exception an external
    collaborator raised; [DeviceException] is [miio.DeviceException] with
    its message template and the exception it was raised [from]. *)
Inductive exn : Type :=
| KeyError (key : string)
| TypeError
| ValueError
| IndexError
| AttributeError
| ZeroDivisionError
| OverflowError
| BuiltinError (what : string)
| DeviceException (msg : string) (cause : option exn).

Inductive result (A : Type) : Type :=
| Ok (a : A)
| Raise (e : exn).
Arguments Ok {A} a.
Arguments Raise {A} e.

Definition result_bind {A B} (r : result A) (k : A -> result B) : result B :=
  match r with
  | Ok a => k a
  | Raise e => Raise e
  end.

Inductive value : Type :=
| VNone
| VBool (b : bool)
| VInt (z : Z)
| VFloat (f : spec_float)
| VStr (s : string)
| VList (l : list value).

(** *** binary64 arithmetic *)

Definition prec : Z := 53.
Definition emax : Z := 1024.

(** [float(z)]: the nearest binary64 number, ties to even;
    [OverflowError] when [z] is out of range. *)
Definition float_of_int (z : Z) : result spec_float :=
  match binary_normalize prec emax z 0 false with
  | S754_infinity _ => Raise OverflowError
  | f => Ok f
  end.

Definition float_is_zero (f : spec_float) : bool :=
  match f with
  | S754_zero _ => true
  | _ => false
  end.

(** [a / b] on two ints: the correctly rounded quotient
    (CPython's [long_true_divide]). *)
Definition int_truediv (a b : Z) : result value :=
  if b =? 0 then Raise ZeroDivisionError
  else
    let negate := xorb (a <? 0) (b <? 0) in
    if a =? 0 then Ok (VFloat (S754_zero negate))
    else
      let '(mz, ez, lz) := SFdiv_core_binary prec emax (Z.abs a) 0 (Z.abs b) 0 in
      match binary_round_aux prec emax negate mz ez lz with
      | S754_infinity _ => Raise OverflowError
      | f => Ok (VFloat f)
      end.

(** [a / b] on two floats (CPython's [float_div]). *)
Definition float_truediv (a b : spec_float) : result value :=
  if float_is_zero b then Raise ZeroDivisionError
  else Ok (VFloat (SFdiv prec emax a b)).

(** The numeric tower as far as [/] sees it: [bool] is a subclass of
    [int]; everything that is neither int nor float has no [__truediv__]. *)
Inductive number : Type :=
| NInt (z : Z)
| NFloat (f : spec_float).

Definition as_number (v : value) : option number :=
  match v with
  | VBool b => Some (NInt (Z.b2z b))
  | VInt z => Some (NInt z)
  | VFloat f => Some (NFloat f)
  | _ => None
  end.

(** [a / b]. *)
Definition truediv (a b : value) : result value :=
  match as_number a, as_number b with
  | Some (NInt x), Some (NInt y) => int_truediv x y
  | Some (NFloat x), Some (NFloat y) => float_truediv x y
  | Some (NFloat x), Some (NInt y) =>
      result_bind (float_of_int y) (float_truediv x)
  | Some (NInt x), Some (NFloat y) =>
      result_bind (float_of_int x) (fun fx => float_truediv fx y)
  | _, _ => Raise TypeError
  end.

(** [bool(v)]. *)
Definition truthy (v : value) : bool :=
  match v with
  | VNone => false
  | VBool b => b
  | VInt z => negb (z =? 0)
  | VFloat f => negb (float_is_zero f)
  | VStr s => negb (String.eqb s "")
  | VList l => match l with [] => false | _ => true end
  end.

(** The exact integer a float denotes, when it denotes one. *)
Definition float_exact_int (f : spec_float) : option Z :=
  match f with
  | S754_zero _ => Some 0
  | S754_finite s m e =>
      if 0 <=? e then Some (cond_Zopp s (Z.pos m * 2 ^ e))
      else if Z.pos m mod 2 ^ (- e) =? 0
           then Some (cond_Zopp s (Z.pos m / 2 ^ (- e)))
           else None
  | _ => None
  end.

(** [a == b] on numbers: Python compares an int and a float by exact
    value. *)
Definition number_eqb (a b : number) : bool :=
  match a, b with
  | NInt x, NInt y => x =? y
  | NFloat x, NFloat y => SFeqb x y
  | NInt x, NFloat y | NFloat y, NInt x =>
      match float_exact_int y with
      | Some z => x =? z
      | None => false
      end
  end.

(** [a == b]. *)
Fixpoint eqb (a b : value) {struct a} : bool :=
  match as_number a, as_number b with
  | Some x, Some y => number_eqb x y
  | _, _ =>
      match a, b with
      | VNone, VNone => true
      | VStr s, VStr t => String.eqb s t
      | VList l, VList k =>
          (fix eqbs (l : list value) (k : list value) {struct l} : bool :=
             match l, k with
             | [], [] => true
             | x :: l', y :: k' => eqb x y && eqbs l' k'
             | _, _ => false
             end) l k
      | _, _ => false
      end
  end.

(** *** The builtins [int] and [bool] *)

(** Whitespace that [int(str)] strips.  Strings are sequences of
    one-byte characters; code points above 127 and the interpreter's
    limit on the number of digits are outside the model. *)
Definition is_space (c : ascii) : bool :=
  let n := Z.of_N (Ascii.N_of_ascii c) in
  ((9 <=? n) && (n <=? 13)) || ((28 <=? n) && (n <=? 32)).

Definition digit_of (c : ascii) : option Z :=
  let n := Z.of_N (Ascii.N_of_ascii c) in
  if (48 <=? n) && (n <=? 57) then Some (n - 48) else None.

Fixpoint drop_spaces (l : list ascii) : list ascii :=
  match l with
  | c :: l' => if is_space c then drop_spaces l' else l
  | [] => []
  end.

Definition strip (l : list ascii) : list ascii :=
  rev (drop_spaces (rev (drop_spaces l))).

(** Decimal digits, with single underscores allowed between digits. *)
Fixpoint parse_digits (acc : Z) (after_digit : bool) (l : list ascii)
  : option Z :=
  match l with
  | [] => if after_digit then Some acc else None
  | c :: l' =>
      match digit_of c with
      | Some d => parse_digits (10 * acc + d) true l'
      | None =>
          if Ascii.eqb c "_"%char && after_digit
          then match l' with
               | [] => None
               | _ => parse_digits acc false l'
               end
          else None
      end
  end.

Definition int_of_string (s : string) : result Z :=
  let body := strip (String.list_ascii_of_string s) in
  let '(neg, digits) :=
    match body with
    | c :: l' =>
        if Ascii.eqb c "-"%char then (true, l')
        else if Ascii.eqb c "+"%char then (false, l')
        else (false, body)
    | [] => (false, body)
    end in
  match parse_digits 0 false digits with
  | Some z => Ok (if neg then - z else z)
  | None => Raise ValueError
  end.

(** [int(f)] on a float truncates towards zero. *)
Definition int_of_float (f : spec_float) : result Z :=
  match f with
  | S754_zero _ => Ok 0
  | S754_finite s m e =>
      Ok (cond_Zopp s (if 0 <=? e then Z.pos m * 2 ^ e
                       else Z.pos m / 2 ^ (- e)))
  | S754_infinity _ => Raise OverflowError
  | S754_nan => Raise ValueError
  end.

(** [int(v)]. *)
Definition int_ (v : value) : result value :=
  match v with
  | VBool b => Ok (VInt (Z.b2z b))
  | VInt z => Ok (VInt z)
  | VFloat f => result_bind (int_of_float f) (fun z => Ok (VInt z))
  | VStr s => result_bind (int_of_string s) (fun z => Ok (VInt z))
  | VNone | VList _ => Raise TypeError
  end.

(** [bool(v)], as a callable. *)
Definition bool_ (v : value) : result value := Ok (VBool (truthy v)).

(** *** Sequences *)

(** [len(v)]. *)
Definition len (v : value) : result nat :=
  match v with
  | VList l => Ok (length l)
  | VStr s => Ok (String.length s)
  | _ => Raise TypeError
  end.

(** [v[i]] for a non-negative index. *)
Definition getitem (v : value) (i : nat) : result value :=
  match v with
  | VList l =>
      match l !! i with
      | Some x => Ok x
      | None => Raise IndexError
      end
  | VStr s =>
      match String.get i s with
      | Some c => Ok (VStr (String c EmptyString))
      | None => Raise IndexError
      end
  | _ => Raise TypeError
  end.

(** [v.pop()]: the last element of a list; the other modelled types have
    no [pop] attribute. *)
Definition pop (v : value) : result value :=
  match v with
  | VList l =>
      match last l with
      | Some x => Ok x
      | None => Raise IndexError
      end
  | _ => Raise AttributeError
  end.

(** *** Insertion-ordered dictionaries with string keys *)

Section Dict.
Context {V : Type}.

Definition dict : Type := list (string * V).

(** [key in d] and [d.get(key)]. *)
Fixpoint dict_get (key : string) (d : dict) : option V :=
  match d with
  | [] => None
  | (k, v) :: d' => if String.eqb k key then Some v else dict_get key d'
  end.

Definition dict_mem (key : string) (d : dict) : bool :=
  match dict_get key d with
  | Some _ => true
  | None => false
  end.

(** [d[key] = v]: an existing key keeps its position. *)
Fixpoint dict_set (key : string) (v : V) (d : dict) : dict :=
  match d with
  | [] => [(key, v)]
  | (k, w) :: d' =>
      if String.eqb k key then (k, v) :: d'
      else (k, w) :: dict_set key v d'
  end.

(** [d.pop(key)], with no default: the value and the remaining dict. *)
Fixpoint dict_pop (key : string) (d : dict) : option (V * dict) :=
  match d with
  | [] => None
  | (k, w) :: d' =>
      if String.eqb k key then Some (w, d')
      else match dict_pop key d' with
           | Some (v, d'') => Some (v, (k, w) :: d'')
           | None => None
           end
  end.

Definition dict_keys (d : dict) : list string := d.*1.
Definition dict_values (d : dict) : list V := d.*2.
End Dict.
Arguments dict V : clear implicits.

(** [l.remove(x)] on a list of strings: drops the first occurrence,
    [None] standing for [ValueError] when there is none. *)
Fixpoint list_remove (x : string) (l : list string) : option (list string) :=
  match l with
  | [] => None
  | y :: l' =>
      if String.eqb y x then Some l'
      else match list_remove x l' with
           | Some l'' => Some (y :: l'')
           | None => None
           end
  end.

End Py.

(** ** [miio/descriptors.py] *)

Module Descriptors.
Import Py.

Record ValidSettingRange := {
  vsr_min_value : Z;
  vsr_max_value : Z;
  vsr_step : Z
}.

(** The fields of [Descriptor]; a [type] or a callable is kept by name. *)
Record Descriptor := {
  id : string;
  name : string;
  type : option string;
  extras : dict value
}.

Record ActionDescriptor := {
  ad_base : Descriptor;
  method_name : option string;
  method : option string;
  inputs : option (list value)
}.

Record SensorDescriptor := {
  sd_base : Descriptor;
  sd_property : string;
  sd_unit : option string
}.

Inductive SettingType := Undefined | Number | Boolean | Enum.

(** The fields [SettingDescriptor] adds to [Descriptor].  [setting_type]
    is not among them: on the base class it is a class attribute. *)
Record SettingFields := {
  sf_base : Descriptor;
  property : string;
  unit : option string;
  setter : option string;
  setter_name : option string
}.

(** [SettingDescriptor] and its three subclasses.  Each subclass turns
    [setting_type] into a field with its own default, which the
    constructor accepts like any other field. *)
Inductive SettingDescriptor :=
| BaseSetting (f : SettingFields)
| BooleanSettingDescriptor (f : SettingFields) (st : SettingType)
| EnumSettingDescriptor (f : SettingFields) (st : SettingType)
    (choices_attribute : option string) (choices : option (list string))
| NumberSettingDescriptor (f : SettingFields) (st : SettingType)
    (min_value max_value step : Z) (range_attribute : option string).

Definition setting_type (self : SettingDescriptor) : SettingType :=
  match self with
  | BaseSetting _ => Undefined
  | BooleanSettingDescriptor _ st => st
  | EnumSettingDescriptor _ st _ _ => st
  | NumberSettingDescriptor _ st _ _ _ _ => st
  end.

(** The local [cast_map] of [cast_value]: it has no entry for
    [SettingType.Undefined]. *)
Definition cast_map (k : SettingType) : option (value -> result value) :=
  match k with
  | Boolean => Some bool_
  | Enum => Some int_
  | Number => Some int_
  | Undefined => None
  end.

(** [SettingDescriptor.cast_value].  Python evaluates the callee
    [cast_map[self.setting_type]] before the argument [int(value)]. *)
Definition cast_value (self : SettingDescriptor) (v : value) : result value :=
  match cast_map (setting_type self) with
  | None => Raise (KeyError "SettingType.Undefined")
  | Some cast => result_bind (int_ v) cast
  end.

End Descriptors.

(** ** The external collaborators of a sub-device

    The gateway transport, its push server and the observers' callbacks
    are not part of the proxy.  They are an abstract state [E] with one
    transition per entry point the proxy uses; each may return or raise. *)

Module Gateway.
Import Py.

(** [miio.push_server.EventInfo], as [subscribe_events] fills it in. *)
Record EventInfo := {
  action : string;
  extra : value;
  source_sid : string;
  source_model : string;
  event : value;
  command_extra : value;
  trigger_value : value
}.

(** An observer is known to the proxy only as a callable. *)
Definition GatewayCallback : Type := string.

Class Environment (E : Type) := {
  (** [gw.model] *)
  gateway_model : E -> string;
  (** [gw.send(command, parameters)] *)
  gateway_send : string -> value -> E -> result value * E;
  (** [gw._push_server is not None] *)
  has_push_server : E -> bool;
  (** [await gw._push_server.subscribe_event(gw, event_info)] *)
  subscribe_event : EventInfo -> E -> result (option string) * E;
  (** [await gw._push_server.unsubscribe_event(gw, event_id)] *)
  unsubscribe_event : string -> E -> result value * E;
  (** [callback(action, params)] *)
  invoke : GatewayCallback -> string -> string -> E -> result value * E
}.

Inductive level := DEBUG | INFO | ERROR.

(** Everything a method does that is visible outside the proxy object. *)
Inductive effect :=
| Log (lvl : level) (template : string) (args : list string)
| Send (command : string) (parameters : value)
| SubscribeEvent (info : EventInfo)
| UnsubscribeEvent (event_id : string)
| Invoke (callback : GatewayCallback) (action params : string).

Definition is_log (e : effect) : bool :=
  match e with
  | Log _ _ _ => true
  | _ => false
  end.

(** The effects that reach the gateway, the push server or an observer. *)
Definition external (t : list effect) : list effect :=
  filter (fun e => is_log e = false) t.

(** A scripted environment: every entry point answers with the next
    element of its script and fails once the script is used up. *)
Record Script := {
  s_model : string;
  s_push_server : bool;
  s_send : list (result value);
  s_subscribe : list (result (option string));
  s_unsubscribe : list (result value);
  s_invoke : list (result value)
}.

Definition exhausted {A} : result A := Raise (BuiltinError "no scripted answer").

Definition script_send (s : Script) : result value * Script :=
  match s_send s with
  | r :: rest =>
      (r, {| s_model := s_model s; s_push_server := s_push_server s;
             s_send := rest; s_subscribe := s_subscribe s;
             s_unsubscribe := s_unsubscribe s; s_invoke := s_invoke s |})
  | [] => (exhausted, s)
  end.

Definition script_subscribe (s : Script) : result (option string) * Script :=
  match s_subscribe s with
  | r :: rest =>
      (r, {| s_model := s_model s; s_push_server := s_push_server s;
             s_send := s_send s; s_subscribe := rest;
             s_unsubscribe := s_unsubscribe s; s_invoke := s_invoke s |})
  | [] => (exhausted, s)
  end.

Definition script_unsubscribe (s : Script) : result value * Script :=
  match s_unsubscribe s with
  | r :: rest =>
      (r, {| s_model := s_model s; s_push_server := s_push_server s;
             s_send := s_send s; s_subscribe := s_subscribe s;
             s_unsubscribe := rest; s_invoke := s_invoke s |})
  | [] => (exhausted, s)
  end.

Definition script_invoke (s : Script) : result value * Script :=
  match s_invoke s with
  | r :: rest =>
      (r, {| s_model := s_model s; s_push_server := s_push_server s;
             s_send := s_send s; s_subscribe := s_subscribe s;
             s_unsubscribe := s_unsubscribe s; s_invoke := rest |})
  | [] => (exhausted, s)
  end.

#[export] Instance scripted : Environment Script := {|
  gateway_model := s_model;
  gateway_send _ _ := script_send;
  has_push_server := s_push_server;
  subscribe_event _ := script_subscribe;
  unsubscribe_event _ := script_unsubscribe;
  invoke _ _ _ := script_invoke
|}.

(** A steady environment: a gateway with a push server on which every
    request succeeds.  A transport call is answered with [st_answer], a
    subscription with a handle named after the action, a release with
    [["ok"]]; [st_calls] counts the requests served. *)
Record Steady := {
  st_model : string;
  st_answer : value;
  st_calls : nat
}.

Definition served (s : Steady) : Steady :=
  {| st_model := st_model s; st_answer := st_answer s;
     st_calls := S (st_calls s) |}.

#[export] Instance steady : Environment Steady := {|
  gateway_model := st_model;
  gateway_send _ _ s := (Ok (st_answer s), served s);
  has_push_server _ := true;
  subscribe_event info s := (Ok (Some ("handle:" +:+ action info)), served s);
  unsubscribe_event _ s := (Ok (VList [VStr "ok"]), served s);
  invoke _ _ _ s := (Ok VNone, served s)
|}.

End Gateway.

(** ** [miio/integrations/lumi/gateway/devices/subdevice.py] *)

Module SubDevice.
Import Py Gateway.

(** *** Configuration data *)

Record SubDeviceInfo := {
  info_sid : string;
  type_id : Z;
  unknown : Z;
  unknown2 : Z;
  fw_ver : Z
}.

(** One entry of [model_info["properties"]].  A key that may be missing
    is an [option]; ["property"] is read with [prop["property"]] and is
    always there. *)
Record Property := {
  prop_property : string;
  prop_name : option string;
  prop_default : option value;
  prop_get : option string;
  prop_devisor : option value
}.

(** One entry of [model_info["push_properties"]]. *)
Record PushEvent := {
  pe_property : option string;
  pe_value : option value;
  pe_extra : option value;
  pe_event : option value;
  pe_command_extra : option value;
  pe_trigger_value : option value
}.

Record ModelInfo := {
  mi_battery_powered : option bool;
  mi_model : option string;
  mi_name : option string;
  mi_zigbee_id : option string;
  mi_type : option string;
  mi_properties : option (list Property);
  mi_setter : option string;
  mi_push_properties : option (dict PushEvent)
}.

Definition empty_model_info : ModelInfo :=
  {| mi_battery_powered := None; mi_model := None; mi_name := None;
     mi_zigbee_id := None; mi_type := None; mi_properties := None;
     mi_setter := None; mi_push_properties := None |}.

(** *** The proxy object

    [push_events] is [None] when the configuration has no
    ["push_properties"]: the attribute is then the empty list [[]], which
    has no keys and cannot be indexed by an action name. *)
Record SubDevice := {
  sid : string;
  _model_info : ModelInfo;
  _battery_powered : bool;
  _battery : value;
  _voltage : value;
  _fw_ver : value;
  _model : string;
  _name : string;
  _zigbee_model : string;
  _props : gmap string value;
  get_prop_exp_dict : dict Property;
  setter : option string;
  push_events : option (dict PushEvent);
  _event_ids : list string;
  _registered_callbacks : dict GatewayCallback
}.

Definition set_props (f : gmap string value -> gmap string value)
    (self : SubDevice) : SubDevice :=
  {| sid := sid self; _model_info := _model_info self;
     _battery_powered := _battery_powered self; _battery := _battery self;
     _voltage := _voltage self; _fw_ver := _fw_ver self;
     _model := _model self; _name := _name self;
     _zigbee_model := _zigbee_model self; _props := f (_props self);
     get_prop_exp_dict := get_prop_exp_dict self; setter := setter self;
     push_events := push_events self; _event_ids := _event_ids self;
     _registered_callbacks := _registered_callbacks self |}.

Definition set_battery (v : value) (self : SubDevice) : SubDevice :=
  {| sid := sid self; _model_info := _model_info self;
     _battery_powered := _battery_powered self; _battery := v;
     _voltage := _voltage self; _fw_ver := _fw_ver self;
     _model := _model self; _name := _name self;
     _zigbee_model := _zigbee_model self; _props := _props self;
     get_prop_exp_dict := get_prop_exp_dict self; setter := setter self;
     push_events := push_events self; _event_ids := _event_ids self;
     _registered_callbacks := _registered_callbacks self |}.

Definition set_fw_ver (v : value) (self : SubDevice) : SubDevice :=
  {| sid := sid self; _model_info := _model_info self;
     _battery_powered := _battery_powered self; _battery := _battery self;
     _voltage := _voltage self; _fw_ver := v;
     _model := _model self; _name := _name self;
     _zigbee_model := _zigbee_model self; _props := _props self;
     get_prop_exp_dict := get_prop_exp_dict self; setter := setter self;
     push_events := push_events self; _event_ids := _event_ids self;
     _registered_callbacks := _registered_callbacks self |}.

Definition set_event_ids (f : list string -> list string)
    (self : SubDevice) : SubDevice :=
  {| sid := sid self; _model_info := _model_info self;
     _battery_powered := _battery_powered self; _battery := _battery self;
     _voltage := _voltage self; _fw_ver := _fw_ver self;
     _model := _model self; _name := _name self;
     _zigbee_model := _zigbee_model self; _props := _props self;
     get_prop_exp_dict := get_prop_exp_dict self; setter := setter self;
     push_events := push_events self; _event_ids := f (_event_ids self);
     _registered_callbacks := _registered_callbacks self |}.

Definition set_registered_callbacks
    (f : dict GatewayCallback -> dict GatewayCallback)
    (self : SubDevice) : SubDevice :=
  {| sid := sid self; _model_info := _model_info self;
     _battery_powered := _battery_powered self; _battery := _battery self;
     _voltage := _voltage self; _fw_ver := _fw_ver self;
     _model := _model self; _name := _name self;
     _zigbee_model := _zigbee_model self; _props := _props self;
     get_prop_exp_dict := get_prop_exp_dict self; setter := setter self;
     push_events := push_events self; _event_ids := _event_ids self;
     _registered_callbacks := f (_registered_callbacks self) |}.

Definition set_voltage (v : value) (self : SubDevice) : SubDevice :=
  {| sid := sid self; _model_info := _model_info self;
     _battery_powered := _battery_powered self; _battery := _battery self;
     _voltage := v; _fw_ver := _fw_ver self;
     _model := _model self; _name := _name self;
     _zigbee_model := _zigbee_model self; _props := _props self;
     get_prop_exp_dict := get_prop_exp_dict self; setter := setter self;
     push_events := push_events self; _event_ids := _event_ids self;
     _registered_callbacks := _registered_callbacks self |}.

(** The read-only properties [status], [device_type], [zigbee_model],
    [firmware_version], [battery] and [voltage]. *)
Definition status (self : SubDevice) : gmap string value := _props self.
Definition device_type (self : SubDevice) : option string :=
  mi_type (_model_info self).
Definition zigbee_model (self : SubDevice) : string := _zigbee_model self.
Definition firmware_version (self : SubDevice) : value := _fw_ver self.
Definition battery (self : SubDevice) : value := _battery self.
Definition voltage (self : SubDevice) : value := _voltage self.

(** [prop.get("name", prop["property"])] *)
Definition display_name (prop : Property) : string :=
  default (prop_property prop) (prop_name prop).

(** The loop of [__init__] over [model_info.get("properties", [])]. *)
Fixpoint init_properties (properties : list Property)
    (props : gmap string value) (exp : dict Property)
  : gmap string value * dict Property :=
  match properties with
  | [] => (props, exp)
  | prop :: rest =>
      let props := <[display_name prop := default VNone (prop_default prop)]> props in
      let exp :=
        match prop_get prop with
        | Some g =>
            if String.eqb g "get_property_exp"
            then dict_set (prop_property prop) prop exp
            else exp
        | None => exp
        end in
      init_properties rest props exp
  end.

(** [SubDevice.__init__]; the gateway reference [gw] lives in the world. *)
Definition __init__ (dev_info : SubDeviceInfo) (model_info : option ModelInfo)
  : SubDevice :=
  let model_info := default empty_model_info model_info in
  let '(props, exp) :=
    init_properties (default [] (mi_properties model_info)) ∅ [] in
  {| sid := info_sid dev_info;
     _model_info := model_info;
     _battery_powered := default true (mi_battery_powered model_info);
     _battery := VNone;
     _voltage := VNone;
     _fw_ver := VInt (fw_ver dev_info);
     _model := default "unknown" (mi_model model_info);
     _name := default "unknown" (mi_name model_info);
     _zigbee_model := default "unknown" (mi_zigbee_id model_info);
     _props := props;
     get_prop_exp_dict := exp;
     setter := mi_setter model_info;
     push_events := mi_push_properties model_info;
     _event_ids := [];
     _registered_callbacks := [] |}.

(** *** The world a method runs in *)

Record World (E : Type) := {
  self : SubDevice;
  env : E;
  trace : list effect
}.
Arguments self {E} w.
Arguments env {E} w.
Arguments trace {E} w.

(** A method body: from a world to a return value or a raised exception,
    and the world it leaves behind.  An exception keeps every mutation
    made before it was raised. *)
Definition M (E A : Type) : Type := World E -> result A * World E.

#[export] Instance M_ret {E} : MRet (M E) := fun A a w => (Ok a, w).

#[export] Instance M_bind {E} : MBind (M E) := fun A B k c w =>
  match c w with
  | (Ok a, w') => k a w'
  | (Raise e, w') => (Raise e, w')
  end.

Section Methods.
Context {E : Type} `{Environment E}.

(** The two constants [subdevice.py] imports from the gateway module. *)
Variables GATEWAY_MODEL_EU GATEWAY_MODEL_ZIG3 : string.

Definition raise {A} (e : exn) : M E A := fun w => (Raise e, w).

(** [try: body  except Exception as ex: handler(ex)] *)
Definition try_except {A} (body : M E A) (handler : exn -> M E A) : M E A :=
  fun w =>
    match body w with
    | (Ok a, w') => (Ok a, w')
    | (Raise ex, w') => handler ex w'
    end.

Definition lift {A} (r : result A) : M E A := fun w => (r, w).

Definition get_self : M E SubDevice := fun w => (Ok (self w), w).

Definition modify_self (f : SubDevice -> SubDevice) : M E unit := fun w =>
  (Ok tt, {| self := f (self w); env := env w; trace := trace w |}).

Definition emit (e : effect) : M E unit := fun w =>
  (Ok tt, {| self := self w; env := env w; trace := trace w ++ [e] |}).

(** A call into the environment, recorded in the trace before it runs. *)
Definition call {A} (e : effect) (f : E -> result A * E) : M E A := fun w =>
  let '(r, env') := f (env w) in
  (r, {| self := self w; env := env'; trace := trace w ++ [e] |}).

Definition gw_model : M E string := fun w => (Ok (gateway_model (env w)), w).

Definition gw_has_push_server : M E bool :=
  fun w => (Ok (has_push_server (env w)), w).

(** [self._gw.send(command, parameters)] *)
Definition gw_send (command : string) (parameters : value) : M E value :=
  call (Send command parameters) (gateway_send command parameters).

(** [self._model]. *)
Definition model : M E string := d ← get_self; mret (_model d).

(** [self.name]. *)
Definition name : M E string :=
  d ← get_self; mret (_name d +:+ " (" +:+ sid d +:+ ")").

(** **** Command relay *)

(** [send(command)] *)
Definition send (command : string) : M E value :=
  d ← get_self;
  try_except (gw_send command (VList [VStr (sid d)]))
    (fun ex => raise (DeviceException
       "Got an exception while sending command %s on model %s" (Some ex))).

(** [get_property(property)] *)
Definition get_property (property : string) : M E value :=
  d ← get_self;
  response ← try_except
    (gw_send "get_device_prop" (VList [VStr (sid d); VStr property]))
    (fun ex => raise (DeviceException
       "Got an exception while fetching property %s on model %s" (Some ex)));
  if negb (truthy response)
  then raise (DeviceException
         "Empty response while fetching property %r: %s on model %s" None)
  else mret response.

(** [get_property_exp(properties)] *)
Definition get_property_exp (properties : list string) : M E value :=
  d ← get_self;
  response ← try_except
    (r ← gw_send "get_device_prop_exp"
           (VList [VList (VStr (sid d) :: (VStr <$> properties))]);
     lift (pop r))
    (fun ex => raise (DeviceException
       "Got an exception while fetching properties %s on model %s" (Some ex)));
  n ← lift (len response);
  if negb (Nat.eqb (length properties) n)
  then raise (DeviceException
         "unexpected result while fetching properties %s: %s on model %s" None)
  else mret response.

(** **** Property update *)

(** The body of the [for] loop of [update], from index [i] on. *)
Fixpoint update_loop (values : value) (props : list Property) (i : nat)
  : M E unit :=
  match props with
  | [] => mret tt
  | prop :: rest =>
      result ← lift (getitem values i);
      result ←
        (if truthy (default VNone (prop_devisor prop))
         then vi ← lift (getitem values i);
              lift (truediv vi (default VNone (prop_devisor prop)))
         else mret result);
      modify_self (set_props (insert (display_name prop) result));;
      update_loop values rest (S i)
  end.

(** [update()] *)
Definition update : M E value :=
  d ← get_self;
  match get_prop_exp_dict d with
  | [] => mret VNone
  | _ =>
      values ← get_property_exp (dict_keys (get_prop_exp_dict d));
      try_except
        (update_loop values (dict_values (get_prop_exp_dict d)) 0)
        (fun ex => raise (DeviceException
           "One or more unexpected results while fetching properties %s: %s on model %s"
           (Some ex)));;
      mret VNone
  end.

(** **** Derived readers *)

(** [get_battery()] *)
Definition get_battery : M E value :=
  d ← get_self;
  if negb (_battery_powered d)
  then
    n ← name;
    emit (Log DEBUG "%s is not battery powered, get_battery not supported" [n]);;
    mret VNone
  else
    m ← gw_model;
    (if negb (bool_decide (m ∈ [GATEWAY_MODEL_EU; GATEWAY_MODEL_ZIG3]))
     then r ← send "get_battery";
          b ← lift (pop r);
          modify_self (set_battery b)
     else emit (Log INFO "Gateway model '%s' does not (yet) support get_battery" [m]));;
    d' ← get_self;
    mret (_battery d').

(** [self.get_property("fw_ver").pop()] *)
Definition fetched_fw_ver : M E value :=
  r ← get_property "fw_ver";
  lift (pop r).

(** [get_firmware_version()] *)
Definition get_firmware_version : M E value :=
  try_except
    (v ← fetched_fw_ver;
     modify_self (set_fw_ver v))
    (fun ex => emit (Log INFO
       "get_firmware_version failed, returning firmware version from discovery info: %s"
       []));;
  d ← get_self;
  mret (_fw_ver d).

(** **** Observers *)

(** [register_callback(id, callback)] *)
Definition register_callback (id : string) (callback : GatewayCallback)
  : M E value :=
  d ← get_self;
  (if dict_mem id (_registered_callbacks d)
   then emit (Log ERROR
          "A callback with id '%s' was already registed, overwriting previous callback"
          [id])
   else mret tt);;
  modify_self (set_registered_callbacks (dict_set id callback));;
  mret VNone.

(** [remove_callback(id)] *)
Definition remove_callback (id : string) : M E value :=
  d ← get_self;
  match dict_pop id (_registered_callbacks d) with
  | Some (_, rest) =>
      modify_self (set_registered_callbacks (fun _ => rest));;
      mret VNone
  | None => raise (KeyError id)
  end.

(** [action in self.push_events] *)
Definition is_push_event (d : SubDevice) (action : string) : bool :=
  match push_events d with
  | Some table => dict_mem action table
  | None => false
  end.

(** [self.push_events[action]]: a missing key of the table raises
    [KeyError]; the empty list takes no string index. *)
Definition push_event (action : string) : M E PushEvent :=
  d ← get_self;
  match push_events d with
  | Some table =>
      match dict_get action table with
      | Some event => mret event
      | None => raise (KeyError action)
      end
  | None => raise TypeError
  end.

(** [for callback in self._registered_callbacks.values(): callback(action, params)]

    An observer is a callable of the environment: what it does is a
    transition of [E], and it may return or raise.  An observer that
    calls back into the proxy while it is being dispatched (registers or
    removes a callback, which makes the loop over the live view raise
    [RuntimeError], or writes an attribute) is outside this embedding. *)
Fixpoint dispatch (callbacks : list GatewayCallback) (action params : string)
  : M E unit :=
  match callbacks with
  | [] => mret tt
  | callback :: rest =>
      call (Invoke callback action params) (invoke callback action params);;
      dispatch rest action params
  end.

(** [x is not None] for the result of [event.get(key)]. *)
Definition is_not_None (v : option value) : bool :=
  match v with
  | None | Some VNone => false
  | Some _ => true
  end.

(** [push_callback(action, params)] *)
Definition push_callback (action params : string) : M E value :=
  d ← get_self;
  (if negb (is_push_event d action)
   then emit (Log ERROR
          "Received unregistered action '%s' callback for sid '%s' model '%s'"
          [action; sid d; _model d])
   else mret tt);;
  event ← push_event action;
  (match pe_property event with
   | Some prop =>
       if is_not_None (pe_value event)
       then modify_self (set_props (insert prop (default VNone (pe_value event))))
       else mret tt
   | None => mret tt
   end);;
  d' ← get_self;
  dispatch (dict_values (_registered_callbacks d')) action params;;
  mret VNone.

(** **** Push-event subscriptions *)

(** [self.push_events[action]["extra"]] *)
Definition required_extra (event : PushEvent) : M E value :=
  match pe_extra event with
  | Some x => mret x
  | None => raise (KeyError "extra")
  end.

(** The [EventInfo(...)] built for one declared event, [x] being its
    ["extra"]. *)
Definition make_event_info (d : SubDevice) (action : string)
    (ev : PushEvent) (x : value) : EventInfo :=
  {| Gateway.action := action;
     extra := x;
     source_sid := sid d;
     source_model := _zigbee_model d;
     event := default VNone (pe_event ev);
     command_extra := default (VStr "") (pe_command_extra ev);
     trigger_value := default VNone (pe_trigger_value ev) |}.

(** The [for] loop of [subscribe_events] over the remaining actions;
    [result] is the flag accumulated so far. *)
Fixpoint subscribe_loop (actions : list string) (result : bool) : M E bool :=
  match actions with
  | [] => mret result
  | action :: rest =>
      d ← get_self;
      ev ← push_event action;
      x ← required_extra ev;
      let event_info := make_event_info d action ev x in
      event_id ← call (SubscribeEvent event_info) (subscribe_event event_info);
      match event_id with
      | None => subscribe_loop rest false
      | Some i =>
          modify_self (set_event_ids (fun ids => ids ++ [i]));;
          subscribe_loop rest result
      end
  end.

(** [subscribe_events()] *)
Definition subscribe_events : M E value :=
  present ← gw_has_push_server;
  if negb present
  then raise (DeviceException
         "Can not install push callback without a PushServer instance" None)
  else
    d ← get_self;
    result ← subscribe_loop (default [] (dict_keys <$> push_events d)) true;
    mret (VBool result).

(** [self._gw._push_server.unsubscribe_event(self._gw, event_id)]:
    with no push server the attribute lookup on [None] fails. *)
Definition ps_unsubscribe_event (event_id : string) : M E value :=
  present ← gw_has_push_server;
  if negb present then raise AttributeError
  else call (UnsubscribeEvent event_id) (unsubscribe_event event_id).

(** [self._event_ids.remove(event_id)] *)
Definition remove_event_id (event_id : string) : M E unit :=
  d ← get_self;
  match list_remove event_id (_event_ids d) with
  | Some ids => modify_self (set_event_ids (fun _ => ids))
  | None => raise ValueError
  end.

(** The [for] loop of [unsubscribe_events].  The list iterator keeps an
    index [i] into the live list: each round reads [self._event_ids[i]]
    if [i] is still in range, runs the body and moves on to [i + 1],
    while the body itself shortens the list.  [fuel] bounds the number
    of rounds; [None] means the bound was reached. *)
Fixpoint unsubscribe_loop (fuel : nat) (i : nat) (w : World E)
  : option (result value * World E) :=
  match _event_ids (self w) !! i with
  | None => Some (Ok VNone, w)
  | Some event_id =>
      match fuel with
      | O => None
      | S fuel' =>
          match (ps_unsubscribe_event event_id;;
                 remove_event_id event_id) w with
          | (Ok _, w') => unsubscribe_loop fuel' (S i) w'
          | (Raise ex, w') => Some (Raise ex, w')
          end
      end
  end.

(** [unsubscribe_events()]: every round removes one handle, so there
    are at most as many rounds as handles held on entry. *)
Definition unsubscribe_events (w : World E) : option (result value * World E) :=
  unsubscribe_loop (length (_event_ids (self w))) 0%nat w.

(** [unpair()] *)
Definition unpair : M E value := send "remove_device".

(** [get_voltage()] *)
Definition get_voltage : M E value :=
  d ← get_self;
  if negb (_battery_powered d)
  then
    n ← name;
    emit (Log DEBUG "%s is not battery powered, get_voltage not supported" [n]);;
    mret VNone
  else
    m ← gw_model;
    (if bool_decide (m ∈ [GATEWAY_MODEL_EU; GATEWAY_MODEL_ZIG3])
     then r ← get_property "voltage";
          raw ← lift (pop r);
          v ← lift (truediv raw (VInt 1000));
          modify_self (set_voltage v)
     else emit (Log INFO "Gateway model '%s' does not (yet) support get_voltage" [m]));;
    d' ← get_self;
    mret (_voltage d').
End Methods.
End SubDevice.

(** ** Concrete devices and environments used below *)

Module Scenario.
Import Py Gateway SubDevice.

Definition fields : Descriptors.SettingFields :=
  {| Descriptors.sf_base :=
       {| Descriptors.id := "led"; Descriptors.name := "LED";
          Descriptors.type := None; Descriptors.extras := [] |};
     Descriptors.property := "led";
     Descriptors.unit := None;
     Descriptors.setter := None;
     Descriptors.setter_name := Some "set_led" |}.

Definition discovery : SubDeviceInfo :=
  {| info_sid := "lumi.158d0001"; type_id := 11; unknown := 1;
     unknown2 := 2; fw_ver := 25 |}.

Definition p1 : Property :=
  {| prop_property := "p1"; prop_name := None; prop_default := None;
     prop_get := Some "get_property_exp"; prop_devisor := None |}.

Definition p2 : Property :=
  {| prop_property := "p2"; prop_name := None; prop_default := None;
     prop_get := Some "get_property_exp"; prop_devisor := Some (VInt 10) |}.

Definition motion : PushEvent :=
  {| pe_property := Some "motion"; pe_value := Some (VBool true);
     pe_extra := Some (VStr "[1,13,1,85,[0,1],0,0]"); pe_event := None;
     pe_command_extra := None; pe_trigger_value := None |}.

Definition no_motion : PushEvent :=
  {| pe_property := Some "motion"; pe_value := Some (VBool false);
     pe_extra := Some (VStr "[1,13,1,85,[0,0],0,0]"); pe_event := None;
     pe_command_extra := None; pe_trigger_value := None |}.

(** A mains-powered sensor with two batched properties and two events. *)
Definition sensor_info : ModelInfo :=
  {| mi_battery_powered := Some false;
     mi_model := Some "lumi.sensor";
     mi_name := Some "Sensor";
     mi_zigbee_id := Some "lumi.sensor.v1";
     mi_type := Some "Sensor";
     mi_properties := Some [p1; p2];
     mi_setter := None;
     mi_push_properties := Some [("motion", motion); ("no_motion", no_motion)] |}.

Definition sensor : SubDevice := __init__ discovery (Some sensor_info).

(** A device built with no model configuration at all. *)
Definition bare : SubDevice := __init__ discovery None.

Definition script (push : bool) (sends : list (result value))
    (subs : list (result (option string))) (unsubs : list (result value))
  : Script :=
  {| s_model := "lumi.gateway.v3"; s_push_server := push;
     s_send := sends; s_subscribe := subs; s_unsubscribe := unsubs;
     s_invoke := [Ok VNone; Ok VNone] |}.

Definition world (d : SubDevice) (s : Script) : World Script :=
  {| self := d; env := s; trace := [] |}.

(** The sensor once two observers have registered. *)
Definition observed : SubDevice :=
  set_registered_callbacks (fun _ => [("ha", "on_ha"); ("cli", "on_cli")]) sensor.

(** The sensor holding two subscription handles. *)
Definition subscribed : SubDevice :=
  set_event_ids (fun _ => ["a"; "b"]) sensor.

(** A battery-powered device with the default configuration otherwise. *)
Definition powered : SubDevice := bare.

Definition steady_world (d : SubDevice) (model : string) (answer : value)
  : World Steady :=
  {| self := d;
     env := {| st_model := model; st_answer := answer; st_calls := 0 |};
     trace := [] |}.

(** The sensor holding five subscription handles. *)
Definition crowded : SubDevice :=
  set_event_ids (fun _ => ["a"; "b"; "c"; "d"; "e"]) sensor.

End Scenario.

(** ** Vocabulary of the specification *)

Module Spec.
Import Py Gateway SubDevice.

(** The raw inputs ["1"], [1] and [True]. *)
Definition raw_ones : list value := [VStr "1"; VInt 1; VBool true].

(** The typed result the specification expects from casting one of them,
    for each setting kind it gives a result for. *)
Definition typed_one (k : Descriptors.SettingType) : option value :=
  match k with
  | Descriptors.Boolean => Some (VBool true)
  | Descriptors.Enum => Some (VInt 1)
  | Descriptors.Number => Some (VInt 1)
  | Descriptors.Undefined => None
  end.

(** The float [10.0]. *)
Definition ten : spec_float := S754_finite false 5629499534213120 (-49).

(** The handles at the even positions 0, 2, 4, ... of a list, and those
    at the odd positions. *)
Fixpoint evens (l : list string) : list string :=
  match l with
  | a :: _ :: rest => a :: evens rest
  | _ => l
  end.

Fixpoint odds (l : list string) : list string :=
  match l with
  | _ :: b :: rest => b :: odds rest
  | _ => []
  end.

(** A transport call occurs in a trace. *)
Definition is_transport_call (e : effect) : bool :=
  match e with
  | Send _ _ => true
  | _ => false
  end.

(** An observer invocation occurs in a trace. *)
Definition is_invocation (e : effect) : bool :=
  match e with
  | Invoke _ _ _ => true
  | _ => false
  end.

(** The value [update] stores for the raw value [v] of property [prop]:
    [v] itself, or [v / devisor] when the property has a true divisor. *)
Definition scaled (prop : Property) (v : value) : result value :=
  let devisor := default VNone (prop_devisor prop) in
  if truthy devisor then truediv v devisor else Ok v.

(** An exception is a [DeviceException]. *)
Definition is_DeviceException (e : exn) : Prop :=
  exists msg cause, e = DeviceException msg cause.

End Spec.

(** * Properties of the descriptors *)

Import Py Gateway SubDevice Spec.

Section DescriptorProperties.
Import Descriptors.

Lemma int_of_raw_one (raw : value) :
  raw ∈ raw_ones -> int_ raw = Ok (VInt 1).
Proof.
  unfold raw_ones. rewrite !elem_of_cons, elem_of_nil.
  intros [-> | [-> | [-> | []]]]; reflexivity.
Qed.

(** C6: on a setting descriptor of any class whose kind is Boolean, Enum
    or Number, [cast_value] maps each of the raw inputs ["1"], [1] and
    [True] to the typed one of that kind: [True] for Boolean, the integer
    [1] for Enum and for Number. *)
Theorem cast_value_of_one (d : SettingDescriptor) (raw expected : value) :
  raw ∈ raw_ones ->
  typed_one (setting_type d) = Some expected ->
  cast_value d raw = Ok expected.
Proof.
  intros Hraw Hkind. unfold cast_value.
  rewrite (int_of_raw_one raw Hraw).
  destruct (setting_type d); simpl in Hkind; try discriminate;
    injection Hkind as <-; reflexivity.
Qed.

Lemma cast_value_of_one_witness :
  cast_value (BooleanSettingDescriptor Scenario.fields Boolean) (VStr "1")
    = Ok (VBool true)
  /\ cast_value (EnumSettingDescriptor Scenario.fields Enum None None) (VInt 1)
    = Ok (VInt 1)
  /\ cast_value (NumberSettingDescriptor Scenario.fields Number 0 100 1 None)
       (VBool true)
    = Ok (VInt 1).
Proof.
  split; [| split].
  - apply cast_value_of_one; [apply list_elem_of_here | reflexivity].
  - apply cast_value_of_one;
      [apply list_elem_of_further, list_elem_of_here | reflexivity].
  - apply cast_value_of_one;
      [do 2 apply list_elem_of_further; apply list_elem_of_here | reflexivity].
Defined.

(** C7: on a setting descriptor whose kind is Undefined, [cast_value]
    raises for every raw value: the lookup in the cast table fails with
    a [KeyError] before the raw value is looked at. *)
Theorem cast_value_undefined_raises (d : SettingDescriptor) (raw : value) :
  setting_type d = Undefined ->
  cast_value d raw = Raise (KeyError "SettingType.Undefined").
Proof.
  intros Hkind. unfold cast_value. rewrite Hkind. reflexivity.
Qed.

Lemma cast_value_undefined_raises_witness :
  cast_value (BaseSetting Scenario.fields) (VStr "on")
    = Raise (KeyError "SettingType.Undefined")
  /\ cast_value (NumberSettingDescriptor Scenario.fields Undefined 0 100 1 None)
       (VInt 1)
    = Raise (KeyError "SettingType.Undefined").
Proof.
  split; apply cast_value_undefined_raises; reflexivity.
Defined.
End DescriptorProperties.

(** * Properties of the sub-device proxy *)

(** Unfolds the monadic plumbing of a method body. *)
Ltac run :=
  cbv [mbind M_bind mret M_ret get_self modify_self emit raise lift call
       try_except gw_model gw_has_push_server gw_send name model] in *.

Lemma external_app (t u : list effect) :
  external (t ++ u) = external t ++ external u.
Proof. unfold external. apply filter_app. Qed.

Lemma external_log (t : list effect) lvl template args :
  external (t ++ [Log lvl template args]) = external t.
Proof. rewrite external_app. simpl. apply app_nil_r. Qed.

(** ** Dictionaries *)

Section DictFacts.
Context {V : Type}.
Implicit Types (d : dict V) (k : string).

Lemma dict_pop_None k d : dict_get k d = None -> dict_pop k d = None.
Proof.
  induction d as [| [k' v] d IH]; simpl; [done |].
  destruct (String.eqb k' k); [done |].
  intros Hget. by rewrite (IH Hget).
Qed.

Lemma dict_pop_Some k d v :
  dict_get k d = Some v ->
  exists rest, dict_pop k d = Some (v, rest)
    /\ (forall k', k' <> k -> dict_get k' rest = dict_get k' d)
    /\ (NoDup (dict_keys d) -> dict_get k rest = None /\ NoDup (dict_keys rest))
    /\ exists before after,
         d = before ++ (k, v) :: after /\ rest = before ++ after.
Proof.
  induction d as [| [k0 v0] d IH]; simpl; [done |].
  destruct (String.eqb k0 k) eqn:Hk.
  - apply String.eqb_eq in Hk as ->. intros [= ->].
    exists d. split; [done |]. split; [| split].
    + intros k' Hne. destruct (String.eqb k k') eqn:Hk'; [| done].
      apply String.eqb_eq in Hk'. congruence.
    + intros [Hnotin Hnd]%NoDup_cons. split; [| done].
      destruct (dict_get k d) as [x |] eqn:Hget; [| done].
      exfalso. apply Hnotin. clear - Hget.
      induction d as [| [k1 v1] d IH]; simpl in *; [done |].
      destruct (String.eqb k1 k) eqn:Hk1.
      * apply String.eqb_eq in Hk1 as ->. apply list_elem_of_here.
      * apply list_elem_of_further. by apply IH.
    + by exists [], d.
  - intros Hget. destruct (IH Hget) as (rest & -> & Hother & Hnodup & before & after & -> & ->).
    exists ((k0, v0) :: before ++ after). split; [done |]. split; [| split].
    + intros k' Hne. simpl. destruct (String.eqb k0 k'); [done |]. by apply Hother.
    + intros [Hnotin Hnd]%NoDup_cons. destruct (Hnodup Hnd) as [Hgone Hnd'].
      split.
      * simpl. by rewrite Hk.
      * simpl. apply NoDup_cons. split; [| done].
        intros Hin. apply Hnotin. unfold dict_keys in *.
        rewrite fmap_app in *. rewrite fmap_cons.
        apply elem_of_app in Hin as [Hin | Hin].
        -- apply elem_of_app. by left.
        -- apply elem_of_app. right. by apply list_elem_of_further.
    + by exists ((k0, v0) :: before), after.
Qed.
End DictFacts.

(** ** Frame properties and the observer registry *)

Section ProxyProperties.
Context {E : Type} `{Environment E}.
Implicit Types (w : World E).

Lemma world_eta w : {| self := self w; env := env w; trace := trace w |} = w.
Proof. by destruct w. Qed.

(** C9: with an empty batched-fetch table, [update()] returns [None] and
    leaves the whole world as it found it: the proxy object, the state of
    the gateway and the trace of effects (no transport call, no log
    record) are the ones it started from. *)
Theorem update_without_batch_spec_is_noop w :
  get_prop_exp_dict (self w) = [] ->
  update w = (Ok VNone, w).
Proof.
  intros Hempty. unfold update. run. by rewrite Hempty.
Qed.

(** C8: on a proxy that is not battery powered, [get_battery()] returns
    [None]; it only appends one debug record to the log, so the proxy
    object (the cached battery value included) and the gateway state are
    unchanged and no call to the gateway, the push server or an observer
    is made. *)
Theorem get_battery_not_battery_powered (EU ZIG3 : string) w :
  _battery_powered (self w) = false ->
  exists w',
    get_battery EU ZIG3 w = (Ok VNone, w')
    /\ self w' = self w
    /\ _battery (self w') = _battery (self w)
    /\ env w' = env w
    /\ trace w' = trace w ++
         [Log DEBUG "%s is not battery powered, get_battery not supported"
            [_name (self w) +:+ " (" +:+ sid (self w) +:+ ")"]]
    /\ external (trace w') = external (trace w)
    /\ filter (fun e => is_transport_call e = true) (trace w')
       = filter (fun e => is_transport_call e = true) (trace w).
Proof.
  intros Hmains. unfold get_battery. run. rewrite Hmains. simpl.
  eexists. split; [reflexivity |]. simpl.
  repeat split; try reflexivity.
  - apply external_log.
  - rewrite filter_app. simpl. apply app_nil_r.
Qed.

(** C10: [remove_callback(id)] on a registry with pairwise distinct ids.
    If [id] is not registered, the call raises [KeyError] and changes
    nothing.  If it is, the call returns, [id] is no longer registered,
    every other id is bound to the observer it was bound to, the
    remaining entries keep their order, and nothing else in the world
    changes. *)
Theorem remove_callback_spec (id : string) w :
  NoDup (dict_keys (_registered_callbacks (self w))) ->
  match dict_get id (_registered_callbacks (self w)) with
  | None => remove_callback id w = (Raise (KeyError id), w)
  | Some callback =>
      exists w',
        remove_callback id w = (Ok VNone, w')
        /\ dict_get id (_registered_callbacks (self w')) = None
        /\ (forall id', id' <> id ->
              dict_get id' (_registered_callbacks (self w'))
              = dict_get id' (_registered_callbacks (self w)))
        /\ (exists before after,
              _registered_callbacks (self w) = before ++ (id, callback) :: after
              /\ _registered_callbacks (self w') = before ++ after)
        /\ self w' = set_registered_callbacks
                       (fun _ => _registered_callbacks (self w')) (self w)
        /\ env w' = env w
        /\ trace w' = trace w
  end.
Proof.
  intros Hnodup. unfold remove_callback. run.
  destruct (dict_get id (_registered_callbacks (self w))) as [callback |] eqn:Hget.
  - destruct (dict_pop_Some _ _ _ Hget)
      as (rest & -> & Hother & Hgone & Horder).
    eexists. split; [reflexivity |]. simpl.
    destruct (Hgone Hnodup) as [Hnone _]. done.
  - by rewrite (dict_pop_None _ _ Hget).
Qed.
End ProxyProperties.

Lemma update_without_batch_spec_is_noop_witness :
  let w := Scenario.world Scenario.bare (Scenario.script true [] [] []) in
  update w = (Ok VNone, w).
Proof.
  intros w. apply update_without_batch_spec_is_noop. reflexivity.
Defined.

Lemma get_battery_not_battery_powered_witness :
  let w := Scenario.world Scenario.sensor (Scenario.script true [] [] []) in
  exists w',
    get_battery "lumi.gateway.mieu01" "lumi.gateway.mgl03" w = (Ok VNone, w')
    /\ self w' = self w
    /\ external (trace w') = external (trace w).
Proof.
  intros w.
  destruct (get_battery_not_battery_powered
              "lumi.gateway.mieu01" "lumi.gateway.mgl03" w eq_refl)
    as (w' & Hrun & Hself & _ & _ & _ & Hext & _).
  exists w'. repeat split; assumption.
Defined.

Lemma remove_callback_spec_witness :
  let w := Scenario.world Scenario.observed (Scenario.script true [] [] []) in
  remove_callback "zz" w = (Raise (KeyError "zz"), w)
  /\ exists w',
       remove_callback "ha" w = (Ok VNone, w')
       /\ _registered_callbacks (self w') = [("cli", "on_cli")].
Proof.
  intros w.
  assert (Hnodup : NoDup (dict_keys (_registered_callbacks (self w)))).
  { compute_done. }
  split.
  - exact (remove_callback_spec "zz" w Hnodup).
  - destruct (remove_callback_spec "ha" w Hnodup)
      as (w' & Hrun & _ & _ & (before & after & Hsplit & Hrest) & _).
    exists w'. split; [exact Hrun |].
    vm_compute in Hrun. injection Hrun as <-. reflexivity.
Defined.

(** ** Property update *)

Section UpdateProperties.
Context {E : Type} `{Environment E}.
Implicit Types (w : World E).

Lemma pop_snoc (front : list value) (x : value) :
  pop (VList (front ++ [x])) = Ok x.
Proof. simpl. by rewrite last_snoc. Qed.

(** C1: when the batched-fetch table holds p1 (no divisor) and then p2
    (divisor 10), both stored under their own names, and the batched fetch
    answers with the positional response [[5, 100]], [update()] returns
    and the cache holds 5 under p1 and 100 / 10 under p2.  The quotient is
    the float [10.0], which compares equal to the integer 10. *)
Theorem update_applies_divisor w (first second : Property)
    (front : list value) (env' : E) :
  get_prop_exp_dict (self w) = [("p1", first); ("p2", second)] ->
  display_name first = "p1" ->
  prop_devisor first = None ->
  display_name second = "p2" ->
  prop_devisor second = Some (VInt 10) ->
  gateway_send "get_device_prop_exp"
    (VList [VList [VStr (sid (self w)); VStr "p1"; VStr "p2"]]) (env w)
    = (Ok (VList (front ++ [VList [VInt 5; VInt 100]])), env') ->
  exists w',
    update w = (Ok VNone, w')
    /\ _props (self w') !! "p1" = Some (VInt 5)
    /\ _props (self w') !! "p2" = Some (VFloat ten)
    /\ Py.eqb (VFloat ten) (VInt 10) = true
    /\ _props (self w')
       = <["p2" := VFloat ten]> (<["p1" := VInt 5]> (_props (self w)))
    /\ env w' = env'
    /\ trace w' = trace w ++
         [Send "get_device_prop_exp"
            (VList [VList [VStr (sid (self w)); VStr "p1"; VStr "p2"]])].
Proof.
  intros Htable Hname1 Hdiv1 Hname2 Hdiv2 Hsend.
  unfold update, get_property_exp. run. rewrite Htable. simpl.
  rewrite Hsend. rewrite pop_snoc. simpl.
  unfold update_loop. run. simpl.
  rewrite Hdiv1, Hdiv2, Hname1, Hname2. simpl.
  eexists. split; [reflexivity |]. simpl.
  split; [| split; [| split; [| split; [| split]]]]; try reflexivity.
  - rewrite lookup_insert_ne by done. apply lookup_insert_eq.
  - apply lookup_insert_eq.
Qed.
End UpdateProperties.

Lemma init_registers_in_order :
  get_prop_exp_dict Scenario.sensor = [("p1", Scenario.p1); ("p2", Scenario.p2)].
Proof. reflexivity. Qed.

Lemma update_applies_divisor_witness :
  let w := Scenario.world Scenario.sensor
             (Scenario.script true [Ok (VList [VList [VInt 5; VInt 100]])] [] []) in
  exists w',
    update w = (Ok VNone, w')
    /\ _props (self w') !! "p1" = Some (VInt 5)
    /\ _props (self w') !! "p2" = Some (VFloat ten)
    /\ Py.eqb (VFloat ten) (VInt 10) = true.
Proof.
  intros w.
  destruct (update_applies_divisor w Scenario.p1 Scenario.p2 []
              (Scenario.script true [] [] []))
    as (w' & Hrun & Hp1 & Hp2 & Heq & _); [reflexivity .. |].
  exists w'. repeat split; assumption.
Defined.

(** ** Push-event subscriptions *)

Section SubscriptionProperties.
Context {E : Type} `{Environment E}.
Implicit Types (w : World E).

(** One round of the subscription loop, when the request is answered. *)
Lemma subscribe_loop_step w (a : string) (rest : list string) (result : bool)
    (table : dict PushEvent) (ev : PushEvent) (x : value)
    (answer : option string) (env1 : E) :
  push_events (self w) = Some table ->
  dict_get a table = Some ev ->
  pe_extra ev = Some x ->
  subscribe_event (make_event_info (self w) a ev x) (env w) = (Ok answer, env1) ->
  subscribe_loop (a :: rest) result w
  = subscribe_loop rest
      (match answer with Some _ => result | None => false end)
      {| self := match answer with
                 | Some i => set_event_ids (fun ids => ids ++ [i]) (self w)
                 | None => self w
                 end;
         env := env1;
         trace := trace w ++ [SubscribeEvent (make_event_info (self w) a ev x)] |}.
Proof.
  intros Htable Hget Hextra Hanswer.
  simpl. unfold push_event, required_extra. run.
  rewrite Htable, Hget, Hextra, Hanswer.
  by destruct answer.
Qed.

(** A run of the subscription loop that ends with the flag [True] was
    entered with [True] and got a handle for every action it went
    through: it made one request per action, in order, and appended one
    handle per request. *)
Lemma subscribe_loop_true (actions : list string) :
  forall (result : bool) w w',
    subscribe_loop actions result w = (Ok true, w') ->
    result = true
    /\ exists (infos : list EventInfo) (ids : list string),
         Gateway.action <$> infos = actions
         /\ length ids = length actions
         /\ trace w' = trace w ++ (SubscribeEvent <$> infos)
         /\ _event_ids (self w') = _event_ids (self w) ++ ids.
Proof.
  induction actions as [| a rest IH]; intros result w w' Hrun.
  - simpl in Hrun. run. injection Hrun as -> <-.
    split; [done |]. exists [], []. by rewrite !app_nil_r.
  - simpl in Hrun. unfold push_event, required_extra in Hrun. run.
    destruct (push_events (self w)) as [table |]; [| done].
    destruct (dict_get a table) as [ev |]; [| done].
    destruct (pe_extra ev) as [x |]; [| done].
    destruct (subscribe_event (make_event_info (self w) a ev x) (env w))
      as [[[i |] | ex] env1]; [| | done].
    + apply IH in Hrun as (-> & infos & ids & Hacts & Hlen & Htrace & Hids).
      simpl in Htrace, Hids. split; [done |].
      exists (make_event_info (self w) a ev x :: infos), (i :: ids).
      rewrite Htrace, Hids, <- !app_assoc.
      repeat split; [by rewrite fmap_cons, Hacts | by simpl; rewrite Hlen].
    + apply IH in Hrun as [Hfalse _]. done.
Qed.

(** C4: [subscribe_events()] with a push server on the gateway.
    (1) With two declared events, when the push server returns a handle
    for the first request and [None] for the second, the call returns
    [False] and the first handle has been appended to the held handles.
    (2) Whenever the call returns [True], it has appended one handle per
    declared event, after one request per declared event in the order of
    the table. *)
Theorem subscribe_events_partial_failure :
  (forall w (a1 a2 : string) (e1 e2 : PushEvent) (x1 x2 : value)
          (id1 : string) (env1 env2 : E),
      has_push_server (env w) = true ->
      push_events (self w) = Some [(a1, e1); (a2, e2)] ->
      a1 <> a2 ->
      pe_extra e1 = Some x1 ->
      pe_extra e2 = Some x2 ->
      subscribe_event (make_event_info (self w) a1 e1 x1) (env w)
        = (Ok (Some id1), env1) ->
      subscribe_event (make_event_info (self w) a2 e2 x2) env1
        = (Ok None, env2) ->
      exists w',
        subscribe_events w = (Ok (VBool false), w')
        /\ _event_ids (self w') = _event_ids (self w) ++ [id1]
        /\ id1 ∈ _event_ids (self w'))
  /\ (forall w w',
        subscribe_events w = (Ok (VBool true), w') ->
        exists (infos : list EventInfo) (ids : list string),
          Gateway.action <$> infos = default [] (dict_keys <$> push_events (self w))
          /\ length ids = length infos
          /\ trace w' = trace w ++ (SubscribeEvent <$> infos)
          /\ _event_ids (self w') = _event_ids (self w) ++ ids).
Proof.
  split.
  - intros w a1 a2 e1 e2 x1 x2 id1 env1 env2
      Hserver Htable Hne Hx1 Hx2 Hfirst Hsecond.
    apply String.eqb_neq in Hne.
    unfold subscribe_events. run. rewrite Hserver. simpl. rewrite Htable.
    change (default [] (dict_keys <$> Some [(a1, e1); (a2, e2)])) with [a1; a2].
    erewrite subscribe_loop_step; [| exact Htable | | exact Hx1 | exact Hfirst];
      [| by simpl; rewrite String.eqb_refl].
    erewrite subscribe_loop_step; [| exact Htable | | exact Hx2 | exact Hsecond];
      [| by simpl; rewrite Hne, String.eqb_refl].
    simpl. run.
    eexists. split; [reflexivity |]. simpl. split; [done |].
    apply elem_of_app. right. apply list_elem_of_here.
  - intros w w' Hrun. unfold subscribe_events in Hrun. run.
    destruct (has_push_server (env w)); [| done]. simpl in Hrun.
    destruct (subscribe_loop (default [] (dict_keys <$> push_events (self w)))
                true w) as [[result | ex] w1] eqn:Hloop; [| done].
    injection Hrun as -> ->.
    apply subscribe_loop_true in Hloop as (_ & infos & ids & Hacts & Hlen & Htrace & Hids).
    exists infos, ids. repeat split; try done.
    rewrite Hlen, <- Hacts. by rewrite length_fmap.
Qed.
End SubscriptionProperties.

Lemma subscribe_events_partial_failure_witness :
  let w := Scenario.world Scenario.sensor
             (Scenario.script true [] [Ok (Some "id1"); Ok None] []) in
  exists w',
    subscribe_events w = (Ok (VBool false), w')
    /\ _event_ids (self w') = ["id1"].
Proof.
  intros w.
  destruct (proj1 subscribe_events_partial_failure w
              "motion" "no_motion" Scenario.motion Scenario.no_motion
              (VStr "[1,13,1,85,[0,1],0,0]") (VStr "[1,13,1,85,[0,0],0,0]")
              "id1"
              (Scenario.script true [] [Ok None] [])
              (Scenario.script true [] [] []))
    as (w' & Hrun & Hids & _); [reflexivity | reflexivity | done | reflexivity .. |].
  exists w'. split; assumption.
Defined.

(** ** Firmware version *)

Section FirmwareProperties.
Context {E : Type} `{Environment E}.
Implicit Types (w : World E).

(** Fetching the firmware version talks to the gateway only: the proxy
    object is left alone. *)
Lemma fetched_fw_ver_self w : self (fetched_fw_ver w).2 = self w.
Proof.
  unfold fetched_fw_ver, get_property. run.
  destruct (gateway_send _ _ (env w)) as [[response | ex] env1]; simpl; [| done].
  destruct (truthy response); simpl; [| done].
  by destruct (pop response).
Qed.

(** What [get_firmware_version()] does in general.  It never raises.  If
    the fetch of ["fw_ver"] succeeds, the call returns the fetched value
    and stores it, without a log record.  If the fetch fails, the call
    appends one info record to the log and returns the version the proxy
    holds, leaving the proxy unchanged; as long as the proxy holds what
    [__init__] stored, that is the version of the discovery record. *)
Lemma get_firmware_version_falls_back w :
  exists v w',
    get_firmware_version w = (Ok v, w')
    /\ match fetched_fw_ver w with
       | (Ok fresh, w1) =>
           v = fresh
           /\ self w' = set_fw_ver fresh (self w)
           /\ env w' = env w1
           /\ trace w' = trace w1
       | (Raise _, w1) =>
           v = _fw_ver (self w)
           /\ self w' = self w
           /\ env w' = env w1
           /\ trace w' = trace w1 ++
                [Log INFO
                   "get_firmware_version failed, returning firmware version from discovery info: %s"
                   []]
           /\ (forall dev_info model_info,
                 _fw_ver (self w) = _fw_ver (__init__ dev_info model_info) ->
                 v = VInt (fw_ver dev_info))
       end.
Proof.
  unfold get_firmware_version. run.
  pose proof (fetched_fw_ver_self w) as Hself.
  destruct (fetched_fw_ver w) as [[fresh | ex] w1]; simpl in *.
  - eexists _, _. split; [reflexivity |]. simpl. by rewrite Hself.
  - eexists _, _. split; [reflexivity |]. simpl. rewrite Hself.
    repeat split; try done.
    intros dev_info model_info ->. unfold __init__.
    by destruct (init_properties _ _ _).
Qed.
End FirmwareProperties.

Lemma get_firmware_version_falls_back_witness :
  let w := Scenario.world Scenario.sensor
             (Scenario.script true [Raise (BuiltinError "timeout")] [] []) in
  exists w', get_firmware_version w = (Ok (VInt 25), w').
Proof.
  intros w.
  destruct (get_firmware_version_falls_back w) as (v & w' & Hrun & Hcase).
  exists w'. rewrite Hrun.
  vm_compute in Hcase. destruct Hcase as (-> & _). reflexivity.
Defined.

(** C5 fails on the code: the sensor was discovered with firmware 25 and
    a first [get_firmware_version()] fetched 30.  When the next fetch
    fails, the call does not raise and logs that it is returning the
    firmware version from the discovery info, but what it returns is 30,
    the last fetched value that overwrote [_fw_ver], not the
    discovery-time 25. *)
Theorem get_firmware_version_not_from_discovery :
  let w0 := Scenario.world Scenario.sensor
              (Scenario.script true
                 [Ok (VList [VInt 30]); Raise (BuiltinError "timeout")] [] []) in
  let w1 := (get_firmware_version w0).2 in
  let w2 := (get_firmware_version w1).2 in
  self w0 = __init__ Scenario.discovery (Some Scenario.sensor_info)
  /\ firmware_version (self w0) = VInt (fw_ver Scenario.discovery)
  /\ (get_firmware_version w0).1 = Ok (VInt 30)
  /\ fetched_fw_ver w1
     = (Raise (DeviceException
                 "Got an exception while fetching property %s on model %s"
                 (Some (BuiltinError "timeout"))),
        {| self := self w1; env := Scenario.script true [] [] [];
           trace := trace w1 ++
             [Send "get_device_prop"
                (VList [VStr "lumi.158d0001"; VStr "fw_ver"])] |})
  /\ (get_firmware_version w1).1 = Ok (VInt 30)
  /\ trace w2 = trace w1 ++
       [Send "get_device_prop" (VList [VStr "lumi.158d0001"; VStr "fw_ver"]);
        Log INFO
          "get_firmware_version failed, returning firmware version from discovery info: %s"
          []]
  /\ (get_firmware_version w1).1 <> Ok (VInt (fw_ver Scenario.discovery)).
Proof.
  intros w0 w1 w2. repeat split; try (vm_compute; reflexivity).
  vm_compute. discriminate.
Qed.

(** ** Push-event dispatch *)

Section DispatchProperties.
Context {E : Type} `{Environment E}.
Implicit Types (w : World E).

(** For an action that is not in the push-event table, [push_callback]
    logs the error and then raises on the lookup [self.push_events[action]]:
    the cache is not touched and no observer is invoked, but the call does
    not return. *)
Lemma push_callback_unregistered (action params : string) w :
  is_push_event (self w) action = false ->
  exists ex,
    push_callback action params w
    = (Raise ex,
       {| self := self w; env := env w;
          trace := trace w ++
            [Log ERROR
               "Received unregistered action '%s' callback for sid '%s' model '%s'"
               [action; sid (self w); _model (self w)]] |})
    /\ ex = match push_events (self w) with
            | Some _ => KeyError action
            | None => TypeError
            end.
Proof.
  intros Habsent. unfold push_callback, push_event. run.
  rewrite Habsent. simpl.
  unfold is_push_event, dict_mem in Habsent.
  destruct (push_events (self w)) as [table |]; simpl.
  - destruct (dict_get action table); [done |]. by eexists.
  - by eexists.
Qed.
End DispatchProperties.

(** A declared event is applied to the cache and handed to the observers
    in the order they registered. *)
Example push_callback_motion :
  let w := Scenario.world Scenario.observed (Scenario.script true [] [] []) in
  exists w',
    push_callback "motion" "{}" w = (Ok VNone, w')
    /\ _props (self w') !! "motion" = Some (VBool true)
    /\ trace w' = [Invoke "on_ha" "motion" "{}"; Invoke "on_cli" "motion" "{}"].
Proof.
  intros w. eexists. split; [vm_compute; reflexivity |]. by split.
Qed.

(** C2 fails on the code: the sensor declares the events [motion] and
    [no_motion] only; on [push_callback("unknownAction", "{}")] the error
    is logged and the lookup of the missing key then raises [KeyError]
    out of the call. *)
Theorem push_callback_unknown_action_raises :
  let w := Scenario.world Scenario.observed (Scenario.script true [] [] []) in
  is_push_event (self w) "unknownAction" = false
  /\ push_callback "unknownAction" "{}" w
     = (Raise (KeyError "unknownAction"),
        {| self := self w; env := env w;
           trace := [Log ERROR
             "Received unregistered action '%s' callback for sid '%s' model '%s'"
             ["unknownAction"; "lumi.158d0001"; "lumi.sensor"]] |}).
Proof.
  intros w. split; [reflexivity |].
  destruct (push_callback_unregistered "unknownAction" "{}" w eq_refl)
    as (ex & -> & ->).
  reflexivity.
Qed.

(** ** Releasing subscriptions *)

Lemma list_remove_length (x : string) (l l' : list string) :
  list_remove x l = Some l' -> length l = S (length l').
Proof.
  revert l'. induction l as [| y l IH]; intros l'; simpl; [done |].
  destruct (String.eqb y x); [by intros [= ->] |].
  destruct (list_remove x l) as [l'' |]; [| done].
  intros [= <-]. simpl. by rewrite (IH l'').
Qed.

Lemma list_remove_middle (x : string) (pre rest : list string) :
  x ∉ pre -> list_remove x (pre ++ x :: rest) = Some (pre ++ rest).
Proof.
  induction pre as [| y pre IH]; simpl; intros Hnotin.
  - by rewrite String.eqb_refl.
  - apply not_elem_of_cons in Hnotin as [Hne Hnotin].
    destruct (String.eqb y x) eqn:Heq.
    + apply String.eqb_eq in Heq. congruence.
    + by rewrite (IH Hnotin).
Qed.

Section UnsubscribeProperties.
Context {E : Type} `{Environment E}.
Implicit Types (w : World E).

(** One round of the loop body either raises or removes one handle. *)
Lemma unsubscribe_round_length (event_id : string) w (u : unit) w' :
  (ps_unsubscribe_event event_id;; remove_event_id event_id) w = (Ok u, w') ->
  length (_event_ids (self w)) = S (length (_event_ids (self w'))).
Proof.
  unfold ps_unsubscribe_event, remove_event_id. run.
  destruct (has_push_server (env w)); simpl; [| done].
  destruct (unsubscribe_event event_id (env w)) as [[v | ex] env1]; simpl; [| done].
  destruct (list_remove event_id (_event_ids (self w))) as [ids |] eqn:Hremove;
    simpl; [| done].
  intros [= _ <-]. simpl. by apply list_remove_length in Hremove.
Qed.

(** The loop returns whenever its fuel covers the handles that lie at or
    after the iterator's index. *)
Lemma unsubscribe_loop_returns (fuel : nat) :
  forall (i : nat) w,
    (length (_event_ids (self w)) - i <= fuel)%nat ->
    is_Some (unsubscribe_loop fuel i w).
Proof.
  induction fuel as [| fuel IH]; intros i w Hfuel; simpl.
  - destruct (_event_ids (self w) !! i) as [event_id |] eqn:Hlookup; [| done].
    apply lookup_lt_Some in Hlookup. lia.
  - destruct (_event_ids (self w) !! i) as [event_id |] eqn:Hlookup; [| done].
    apply lookup_lt_Some in Hlookup.
    destruct ((ps_unsubscribe_event event_id;; remove_event_id event_id) w)
      as [[u | ex] w'] eqn:Hround; [| done].
    apply IH. apply unsubscribe_round_length in Hround. lia.
Qed.

(** [unsubscribe_events()] always returns or raises. *)
Lemma unsubscribe_events_returns w : is_Some (unsubscribe_events w).
Proof. apply unsubscribe_loop_returns. lia. Qed.

(** A round whose release succeeds. *)
Lemma unsubscribe_round_ok (event_id : string) w (v : value) (env1 : E)
    (ids : list string) :
  has_push_server (env w) = true ->
  unsubscribe_event event_id (env w) = (Ok v, env1) ->
  list_remove event_id (_event_ids (self w)) = Some ids ->
  (ps_unsubscribe_event event_id;; remove_event_id event_id) w
  = (Ok tt, {| self := set_event_ids (fun _ => ids) (self w);
               env := env1;
               trace := trace w ++ [UnsubscribeEvent event_id] |}).
Proof.
  intros Hserver Hrelease Hremove.
  unfold ps_unsubscribe_event, remove_event_id. run.
  rewrite Hserver. simpl. rewrite Hrelease. simpl. by rewrite Hremove.
Qed.

(** When the push server is there and accepts every release, the loop
    releases the handle under the iterator, which shifts the next handle
    into the slot the iterator has just left: that handle is skipped.  From
    index [length pre], with [suf] still ahead, the handles at the even
    positions of [suf] are released and those at the odd positions stay. *)
Lemma unsubscribe_loop_skips
    (Hserver : forall e : E, has_push_server e = true)
    (Hrelease : forall (event_id : string) (e : E),
        exists v e', unsubscribe_event event_id e = (Ok v, e'))
    (n : nat) :
  forall (suf pre : list string) (fuel : nat) w,
    (length suf <= n)%nat ->
    (length suf <= fuel)%nat ->
    _event_ids (self w) = pre ++ suf ->
    NoDup (pre ++ suf) ->
    exists w',
      unsubscribe_loop fuel (length pre) w = Some (Ok VNone, w')
      /\ _event_ids (self w') = pre ++ odds suf
      /\ trace w' = trace w ++ (UnsubscribeEvent <$> evens suf).
Proof.
  induction n as [| n IH]; intros suf pre fuel w Hn Hfuel Hids Hnodup.
  - destruct suf; [| simpl in Hn; lia].
    exists w. rewrite app_nil_r in Hids.
    destruct fuel; simpl; rewrite Hids, lookup_ge_None_2 by lia;
      by rewrite !app_nil_r.
  - destruct suf as [| a tl].
    { exists w. rewrite app_nil_r in Hids.
      destruct fuel; simpl; rewrite Hids, lookup_ge_None_2 by lia;
        by rewrite !app_nil_r. }
    destruct fuel as [| fuel]; [simpl in Hfuel; lia |].
    assert (Hnotin : a ∉ pre).
    { apply NoDup_app in Hnodup as (_ & Hdisjoint & _).
      intros Hin. apply (Hdisjoint a Hin). apply list_elem_of_here. }
    destruct (Hrelease a (env w)) as (v & env1 & Hok).
    simpl. rewrite Hids, list_lookup_middle by done.
    rewrite (unsubscribe_round_ok a w v env1 (pre ++ tl)); [| done | done |];
      [| by rewrite Hids; apply list_remove_middle].
    destruct tl as [| b rest].
    + eexists. split; [| split].
      * destruct fuel; simpl; rewrite lookup_ge_None_2; try done;
          rewrite app_nil_r; lia.
      * simpl. done.
      * done.
    + destruct (IH rest (pre ++ [b]) fuel
                  {| self := set_event_ids (fun _ => pre ++ b :: rest) (self w);
                     env := env1;
                     trace := trace w ++ [UnsubscribeEvent a] |})
        as (w' & Hloop & Hleft & Htrace).
      * simpl in Hn. lia.
      * simpl in Hfuel. lia.
      * simpl. by rewrite <- app_assoc.
      * rewrite <- app_assoc. simpl.
        apply NoDup_app in Hnodup as (Hpre & Hdisjoint & Hsuf).
        apply NoDup_cons in Hsuf as [_ Hsuf].
        apply NoDup_app. split; [done |]. split; [| done].
        intros x Hx Hx'. apply (Hdisjoint x Hx). by apply list_elem_of_further.
      * exists w'. rewrite length_app in Hloop. simpl in Hloop.
        replace (length pre + 1)%nat with (S (length pre)) in Hloop by lia.
        split; [exact Hloop |]. split.
        -- rewrite Hleft. simpl. by rewrite <- app_assoc.
        -- rewrite Htrace. simpl. by rewrite <- app_assoc.
Qed.

(** With distinct handles and a push server that accepts every release,
    [unsubscribe_events()] returns having released only the handles at
    even positions; the others are still held. *)
Lemma unsubscribe_events_skips w
    (Hserver : forall e : E, has_push_server e = true)
    (Hrelease : forall (event_id : string) (e : E),
        exists v e', unsubscribe_event event_id e = (Ok v, e')) :
  NoDup (_event_ids (self w)) ->
  exists w',
    unsubscribe_events w = Some (Ok VNone, w')
    /\ _event_ids (self w') = odds (_event_ids (self w))
    /\ trace w' = trace w ++ (UnsubscribeEvent <$> evens (_event_ids (self w))).
Proof.
  intros Hnodup. unfold unsubscribe_events.
  apply (unsubscribe_loop_skips Hserver Hrelease
           (length (_event_ids (self w))) (_event_ids (self w)) []); done.
Qed.
End UnsubscribeProperties.

(** C3 fails on the code: the proxy holds the handles [a] and [b] and the
    push server accepts every release.  [unsubscribe_events()] returns
    after releasing [a] only: removing [a] moves [b] to index 0 while the
    iterator moves on to index 1, so [b] is never released and is still
    held. *)
Theorem unsubscribe_events_leaves_handle :
  let w := Scenario.world Scenario.subscribed
             (Scenario.script true [] [] [Ok VNone; Ok VNone]) in
  exists w',
    unsubscribe_events w = Some (Ok VNone, w')
    /\ _event_ids (self w) = ["a"; "b"]
    /\ _event_ids (self w') = ["b"]
    /\ trace w' = [UnsubscribeEvent "a"]
    /\ s_unsubscribe (env w') = [Ok VNone].
Proof.
  intros w. eexists. split; [vm_compute; reflexivity |].
  repeat split.
Qed.

(** ** The observer registry keeps its ids distinct

    The hypothesis of [remove_callback_spec] is an invariant of the proxy:
    it holds after [__init__], and [register_callback] and
    [remove_callback] preserve it. *)

Lemma dict_set_keys {V : Type} (k k' : string) (v : V) (d : dict V) :
  k' ∈ dict_keys (dict_set k v d) <-> k' = k \/ k' ∈ dict_keys d.
Proof.
  unfold dict_keys. induction d as [| [k0 v0] d IH]; simpl.
  - rewrite elem_of_cons, elem_of_nil. tauto.
  - destruct (String.eqb k0 k) eqn:Heq; simpl; rewrite !elem_of_cons.
    + apply String.eqb_eq in Heq as ->. tauto.
    + rewrite IH. tauto.
Qed.

Lemma dict_set_NoDup {V : Type} (k : string) (v : V) (d : dict V) :
  NoDup (dict_keys d) -> NoDup (dict_keys (dict_set k v d)).
Proof.
  induction d as [| [k0 v0] d IH]; simpl.
  - intros _. apply NoDup_singleton.
  - intros [Hnotin Hnodup]%NoDup_cons.
    destruct (String.eqb k0 k) eqn:Heq; simpl.
    + by apply NoDup_cons.
    + apply NoDup_cons. split; [| by apply IH].
      rewrite dict_set_keys. intros [-> | Hin]; [| done].
      by rewrite String.eqb_refl in Heq.
Qed.

Section RegistryInvariant.
Context {E : Type} `{Environment E}.
Implicit Types (w : World E).

Lemma init_registry_distinct dev_info model_info :
  NoDup (dict_keys (_registered_callbacks (__init__ dev_info model_info))).
Proof.
  unfold __init__. destruct (init_properties _ _ _). simpl. apply NoDup_nil_2.
Qed.

Lemma register_callback_distinct (id : string) (callback : GatewayCallback) w :
  NoDup (dict_keys (_registered_callbacks (self w))) ->
  NoDup (dict_keys (_registered_callbacks (self (register_callback id callback w).2))).
Proof.
  intros Hnodup. unfold register_callback. run.
  destruct (dict_mem id (_registered_callbacks (self w))); simpl;
    by apply dict_set_NoDup.
Qed.

Lemma remove_callback_distinct (id : string) w :
  NoDup (dict_keys (_registered_callbacks (self w))) ->
  NoDup (dict_keys (_registered_callbacks (self (remove_callback id w).2))).
Proof.
  intros Hnodup. unfold remove_callback. run.
  destruct (dict_get id (_registered_callbacks (self w))) as [callback |] eqn:Hget.
  - destruct (dict_pop_Some _ _ _ Hget) as (rest & -> & _ & Hgone & _).
    simpl. by destruct (Hgone Hnodup).
  - by rewrite (dict_pop_None _ _ Hget).
Qed.
End RegistryInvariant.

(** * Further properties of the descriptors *)

Section DescriptorCasts.
Import Descriptors.

Lemma int_returns_int (v r : value) : int_ v = Ok r -> exists z, r = VInt z.
Proof.
  destruct v as [| b | z | f | s | l]; simpl; try done.
  - intros [= <-]. by eexists.
  - intros [= <-]. by eexists.
  - destruct (int_of_float f); simpl; [| done]. intros [= <-]. by eexists.
  - destruct (int_of_string s); simpl; [| done]. intros [= <-]. by eexists.
Qed.

(** X1: what [cast_value] returns has the type of the setting kind: a
    [bool] for Boolean, an [int] for Enum and Number; a descriptor of kind
    Undefined returns nothing. *)
Theorem cast_value_result_type (d : SettingDescriptor) (v r : value) :
  cast_value d v = Ok r ->
  match setting_type d with
  | Boolean => exists b, r = VBool b
  | Enum | Number => exists z, r = VInt z
  | Undefined => False
  end.
Proof.
  unfold cast_value.
  destruct (setting_type d); simpl; [done | | |];
    destruct (int_ v) as [x |] eqn:Hint; simpl; try done.
  - intros Hx. by apply int_returns_int in Hx.
  - intros [= <-]. by eexists.
  - intros Hx. by apply int_returns_int in Hx.
Qed.

Lemma cast_value_result_type_witness :
  exists b, VBool true = VBool b.
Proof.
  exact (cast_value_result_type
           (BooleanSettingDescriptor Scenario.fields Boolean)
           (VStr " 1 ") (VBool true) eq_refl).
Defined.

(** X2: [cast_value] is idempotent: a value it returned is cast to itself
    by the same descriptor. *)
Theorem cast_value_idempotent (d : SettingDescriptor) (v r : value) :
  cast_value d v = Ok r -> cast_value d r = Ok r.
Proof.
  unfold cast_value.
  destruct (setting_type d); simpl; [done | | |];
    destruct (int_ v) as [x |] eqn:Hint; simpl; try done;
    apply int_returns_int in Hint as [z ->]; simpl.
  - by intros [= <-].
  - intros [= <-]. simpl. by destruct (z =? 0).
  - by intros [= <-].
Qed.

Lemma cast_value_idempotent_witness :
  cast_value (NumberSettingDescriptor Scenario.fields Number 0 100 1 None)
    (VInt 42) = Ok (VInt 42).
Proof.
  exact (cast_value_idempotent
           (NumberSettingDescriptor Scenario.fields Number 0 100 1 None)
           (VStr "+4_2") (VInt 42) eq_refl).
Defined.

(** X3: on a descriptor of a defined kind, [cast_value] fails exactly when
    [int(value)] fails, and with the same exception: the casts applied
    after [int] never raise. *)
Theorem cast_value_raises_as_int (d : SettingDescriptor) (v : value) (e : exn) :
  setting_type d <> Undefined ->
  (cast_value d v = Raise e <-> int_ v = Raise e).
Proof.
  intros Hkind. unfold cast_value.
  destruct (setting_type d); simpl; [done | | |];
    destruct (int_ v) as [x |] eqn:Hint; simpl; try done.
  - apply int_returns_int in Hint as [z ->]. simpl. split; done.
  - apply int_returns_int in Hint as [z ->]. simpl. split; done.
Qed.

Lemma cast_value_raises_as_int_witness :
  cast_value (EnumSettingDescriptor Scenario.fields Enum None None) (VStr "auto")
    = Raise ValueError
  /\ cast_value (BooleanSettingDescriptor Scenario.fields Boolean) VNone
    = Raise TypeError.
Proof.
  split.
  - apply cast_value_raises_as_int; [discriminate | reflexivity].
  - apply cast_value_raises_as_int; [discriminate | reflexivity].
Defined.
End DescriptorCasts.

(** * Further properties of the sub-device proxy *)

(** ** Command relay *)

Section RelayProperties.
Context {E : Type} `{Environment E}.
Implicit Types (w : World E).

(** [send(command)] makes one transport call addressed to this
    sub-device and leaves the proxy alone; it returns what the gateway
    returned, and raises a [DeviceException] caused by what the gateway
    raised. *)
Lemma send_outcome (command : string) w :
  let '(r, w') := send command w in
  let '(answer, env') :=
    gateway_send command (VList [VStr (sid (self w))]) (env w) in
  self w' = self w
  /\ env w' = env'
  /\ trace w' = trace w ++ [Send command (VList [VStr (sid (self w))])]
  /\ match answer with
     | Ok v => r = Ok v
     | Raise ex => exists msg, r = Raise (DeviceException msg (Some ex))
     end.
Proof.
  unfold send. run.
  destruct (gateway_send _ _ (env w)) as [[v | ex] env']; simpl; eauto.
Qed.

(** The single-property and the batched fetch leave the proxy alone and
    make one transport call each. *)
Lemma get_property_effects (property : string) w :
  self (get_property property w).2 = self w
  /\ trace (get_property property w).2 = trace w ++
       [Send "get_device_prop" (VList [VStr (sid (self w)); VStr property])].
Proof.
  unfold get_property. run.
  destruct (gateway_send _ _ (env w)) as [[v | ex] env']; simpl; [| done].
  by destruct (truthy v).
Qed.

Lemma get_property_exp_effects (properties : list string) w :
  self (get_property_exp properties w).2 = self w
  /\ trace (get_property_exp properties w).2 = trace w ++
       [Send "get_device_prop_exp"
          (VList [VList (VStr (sid (self w)) :: (VStr <$> properties))])]
  /\ (forall e, (get_property_exp properties w).1 = Raise e ->
        e = TypeError \/ is_DeviceException e).
Proof.
  unfold get_property_exp, is_DeviceException. run.
  destruct (gateway_send _ _ (env w)) as [[v | ex] env']; simpl.
  - destruct (pop v) as [response | ex]; simpl.
    + destruct (len response) as [n | ex] eqn:Hlen; simpl.
      * destruct (Nat.eqb (length properties) n); simpl;
          repeat split; try done; intros e [= <-]; eauto.
      * repeat split. intros e [= <-]. left.
        by destruct response; simpl in Hlen; try discriminate;
          injection Hlen as <-.
    + repeat split. intros e [= <-]. eauto.
  - repeat split. intros e [= <-]. eauto.
Qed.

(** X4: [unpair()] relays exactly one [remove_device] command for this
    sub-device and changes nothing in the proxy (cache, handles and
    observers stay).  It returns the gateway's answer as it is; when the
    gateway raises, it raises a [DeviceException] whose cause is the
    gateway's exception. *)
Theorem unpair_outcome w :
  let '(r, w') := unpair w in
  let '(answer, env') :=
    gateway_send "remove_device" (VList [VStr (sid (self w))]) (env w) in
  self w' = self w
  /\ env w' = env'
  /\ trace w' = trace w ++ [Send "remove_device" (VList [VStr (sid (self w))])]
  /\ match answer with
     | Ok v => r = Ok v
     | Raise ex => exists msg, r = Raise (DeviceException msg (Some ex))
     end.
Proof. apply send_outcome. Qed.

(** X5: [get_property(property)] makes one [get_device_prop] call for this
    sub-device and leaves the proxy alone.  If it returns, the response is
    the gateway's and is true (not [None], zero, empty); an empty response
    and a gateway failure both surface as a [DeviceException], and as
    nothing else. *)
Theorem get_property_outcome (property : string) w :
  let '(r, w') := get_property property w in
  let '(answer, env') :=
    gateway_send "get_device_prop"
      (VList [VStr (sid (self w)); VStr property]) (env w) in
  self w' = self w
  /\ env w' = env'
  /\ trace w' = trace w ++
       [Send "get_device_prop" (VList [VStr (sid (self w)); VStr property])]
  /\ match r with
     | Ok response => answer = Ok response /\ truthy response = true
     | Raise e =>
         is_DeviceException e
         /\ (forall response, answer = Ok response -> truthy response = false)
     end.
Proof.
  unfold get_property, is_DeviceException. run.
  destruct (gateway_send _ _ (env w)) as [[v | ex] env']; simpl.
  - destruct (truthy v) eqn:Htruthy; simpl; repeat split; eauto.
    by intros response [= <-].
  - repeat split; eauto. done.
Qed.

(** X6: [get_property_exp(properties)] makes one [get_device_prop_exp]
    call, whose argument is the sub-device id followed by the requested
    names in order, and leaves the proxy alone.  If it returns, the
    response has exactly as many elements as names were requested;
    otherwise it raises a [DeviceException] or, when the response has no
    length, a [TypeError]. *)
Theorem get_property_exp_outcome (properties : list string) w :
  let '(r, w') := get_property_exp properties w in
  self w' = self w
  /\ env w' = (gateway_send "get_device_prop_exp"
                 (VList [VList (VStr (sid (self w)) :: (VStr <$> properties))])
                 (env w)).2
  /\ trace w' = trace w ++
       [Send "get_device_prop_exp"
          (VList [VList (VStr (sid (self w)) :: (VStr <$> properties))])]
  /\ match r with
     | Ok response => len response = Ok (length properties)
     | Raise e => e = TypeError \/ is_DeviceException e
     end.
Proof.
  unfold get_property_exp, is_DeviceException. run.
  destruct (gateway_send _ _ (env w)) as [[v | ex] env']; simpl.
  - destruct (pop v) as [response | ex]; simpl; [| repeat split; eauto].
    destruct (len response) as [n | ex] eqn:Hlen; simpl.
    + destruct (Nat.eqb (length properties) n) eqn:Hn; simpl;
        repeat split; eauto.
      apply Nat.eqb_eq in Hn. by rewrite Hn.
    + repeat split. left.
      by destruct response; simpl in Hlen; try discriminate; injection Hlen as <-.
  - repeat split; eauto.
Qed.

(** X7: the wrapping in [get_property_exp] does not cover the length
    check: when the last element of the gateway's answer is [None], a
    [bool], an [int] or a [float], the call raises a bare [TypeError]. *)
Theorem get_property_exp_unsized_response (properties : list string) w
    (front : list value) (x : value) (env' : E) :
  gateway_send "get_device_prop_exp"
    (VList [VList (VStr (sid (self w)) :: (VStr <$> properties))]) (env w)
    = (Ok (VList (front ++ [x])), env') ->
  match x with
  | VNone | VBool _ | VInt _ | VFloat _ => True
  | _ => False
  end ->
  (get_property_exp properties w).1 = Raise TypeError.
Proof.
  intros Hsend Hx. unfold get_property_exp. run.
  rewrite Hsend, pop_snoc. by destruct x.
Qed.
End RelayProperties.

Lemma get_property_exp_unsized_response_witness :
  (get_property_exp ["p1"]
     (Scenario.world Scenario.sensor
        (Scenario.script true [Ok (VList [VInt 5])] [] []))).1
  = Raise TypeError.
Proof.
  apply (get_property_exp_unsized_response ["p1"] _ [] (VInt 5)
           (Scenario.script true [] [] [])); [reflexivity | exact I].
Defined.

(** ** Property update, in general *)

Lemma set_props_same (d : SubDevice) : set_props (fun _ => _props d) d = d.
Proof. by destruct d. Qed.

Section UpdateInGeneral.
Context {E : Type} `{Environment E}.
Implicit Types (w : World E).

(** The loop of [update] writes into the cache only, and only under the
    display names of the properties it goes through. *)
Lemma update_loop_frame (values : value) (props : list Property) :
  forall (i : nat) w,
    self (update_loop values props i w).2
    = set_props (fun _ => _props (self (update_loop values props i w).2)) (self w)
    /\ env (update_loop values props i w).2 = env w
    /\ trace (update_loop values props i w).2 = trace w
    /\ (forall k, k ∉ display_name <$> props ->
          _props (self (update_loop values props i w).2) !! k
          = _props (self w) !! k).
Proof.
  induction props as [| prop rest IH]; intros i w.
  - simpl. by rewrite set_props_same.
  - simpl. run.
    destruct (getitem values i) as [v |]; simpl;
      [| by rewrite set_props_same].
    destruct (if truthy (default VNone (prop_devisor prop))
              then _ else _) as [[x | ex] w1] eqn:Hscaled.
    + assert (w1 = w) as ->.
      { destruct (truthy _); simpl in Hscaled.
        - by destruct (truediv v _); injection Hscaled as _ <-.
        - by injection Hscaled as _ <-. }
      match goal with
      | |- context [update_loop values rest (S i) ?w1] =>
          destruct (IH (S i) w1) as (Hself & Henv & Htrace & Hother)
      end.
      simpl in *. split; [| split; [| split]]; try done.
      intros k Hk. apply not_elem_of_cons in Hk as [Hne Hk].
      rewrite (Hother k Hk). by apply lookup_insert_ne.
    + assert (w1 = w) as ->.
      { destruct (truthy _); simpl in Hscaled; [| done].
        by destruct (truediv v _); injection Hscaled as _ <-. }
      simpl. by rewrite set_props_same.
Qed.

(** Where the loop returns, every property it went through holds the
    scaled value found at its position. *)
Lemma update_loop_positional (vs : list value) (props : list Property) :
  forall (i : nat) w w',
    update_loop (VList vs) props i w = (Ok tt, w') ->
    NoDup (display_name <$> props) ->
    forall (j : nat) (prop : Property),
      props !! j = Some prop ->
      exists v x,
        vs !! (i + j)%nat = Some v
        /\ scaled prop v = Ok x
        /\ _props (self w') !! display_name prop = Some x.
Proof.
  induction props as [| p rest IH]; intros i w w' Hrun Hnodup j prop Hj; [done |].
  simpl in Hrun. run.
  destruct (vs !! i) as [v |] eqn:Hv; simpl in Hrun; [| done].
  assert (exists x, scaled p v = Ok x
            /\ update_loop (VList vs) rest (S i)
                 {| self := set_props (insert (display_name p) x) (self w);
                    env := env w; trace := trace w |} = (Ok tt, w'))
    as (x & Hx & Hrest).
  { unfold scaled. destruct (truthy (default VNone (prop_devisor p))).
    - simpl in Hrun.
      destruct (truediv v _); simpl in Hrun; [eauto | done].
    - eauto. }
  apply NoDup_cons in Hnodup as [Hfresh Hnodup].
  destruct j as [| j]; simpl in Hj.
  - injection Hj as <-. exists v, x. rewrite Nat.add_0_r.
    split; [done |]. split; [done |].
    pose proof (update_loop_frame (VList vs) rest (S i)
                  {| self := set_props (insert (display_name p) x) (self w);
                     env := env w; trace := trace w |})
      as (_ & _ & _ & Hother).
    rewrite Hrest in Hother. simpl in Hother.
    rewrite (Hother _ Hfresh). apply lookup_insert_eq.
  - replace (i + S j)%nat with (S i + j)%nat by lia.
    by apply (IH (S i) _ w' Hrest Hnodup j prop).
Qed.

(** The batched fetch, when the gateway's answer ends with a list. *)
Lemma get_property_exp_list (properties : list string) w
    (front vs : list value) (env' : E) :
  gateway_send "get_device_prop_exp"
    (VList [VList (VStr (sid (self w)) :: (VStr <$> properties))]) (env w)
    = (Ok (VList (front ++ [VList vs])), env') ->
  get_property_exp properties w
  = ((if Nat.eqb (length properties) (length vs) then Ok (VList vs)
      else Raise (DeviceException
             "unexpected result while fetching properties %s: %s on model %s"
             None)),
     {| self := self w; env := env';
        trace := trace w ++
          [Send "get_device_prop_exp"
             (VList [VList (VStr (sid (self w)) :: (VStr <$> properties))])] |}).
Proof.
  intros Hsend. unfold get_property_exp. run.
  rewrite Hsend, pop_snoc. simpl. by destruct (Nat.eqb _ _).
Qed.

(** X8: [update()] writes into the cache only, and only under the display
    names of the batched-fetch table: every other attribute of the proxy
    and every other cache entry is what it was, whether the call returns
    or raises. *)
Theorem update_frame w :
  self (update w).2 = set_props (fun _ => _props (self (update w).2)) (self w)
  /\ (forall k,
        k ∉ display_name <$> dict_values (get_prop_exp_dict (self w)) ->
        _props (self (update w).2) !! k = _props (self w) !! k).
Proof.
  unfold update. run.
  destruct (get_prop_exp_dict (self w)) as [| entry table] eqn:Htable.
  { simpl. by rewrite set_props_same. }
  pose proof (get_property_exp_effects (dict_keys (entry :: table)) w) as Hfetch.
  destruct (get_property_exp (dict_keys (entry :: table)) w)
    as [[values | ex] w1]; destruct Hfetch as (Hself & _).
  - pose proof (update_loop_frame values (dict_values (entry :: table)) 0%nat w1)
      as (Hloop & _ & _ & Hother).
    destruct (update_loop values (dict_values (entry :: table)) 0 w1)
      as [[u | ex] w2]; simpl in *; rewrite Hself in *; done.
  - simpl in *. rewrite Hself. by rewrite set_props_same.
Qed.

(** X9: with a non-empty table, [update()] makes exactly one transport
    call, a [get_device_prop_exp] for the sub-device id followed by the
    wire names of the table in registration order, and no other external
    call or log record.  It returns [None], or raises a [DeviceException]
    or, for a response without a length, a [TypeError]. *)
Theorem update_relay w :
  get_prop_exp_dict (self w) <> [] ->
  trace (update w).2 = trace w ++
    [Send "get_device_prop_exp"
       (VList [VList (VStr (sid (self w))
                        :: (VStr <$> dict_keys (get_prop_exp_dict (self w))))])]
  /\ match (update w).1 with
     | Ok v => v = VNone
     | Raise e => e = TypeError \/ is_DeviceException e
     end.
Proof.
  intros Hnonempty. unfold update. run.
  destruct (get_prop_exp_dict (self w)) as [| entry table] eqn:Htable; [done |].
  pose proof (get_property_exp_effects (dict_keys (entry :: table)) w) as Hfetch.
  destruct (get_property_exp (dict_keys (entry :: table)) w)
    as [[values | ex] w1]; destruct Hfetch as (_ & Htrace & Hkind).
  - pose proof (update_loop_frame values (dict_values (entry :: table)) 0%nat w1)
      as (_ & _ & Hloop & _).
    destruct (update_loop values (dict_values (entry :: table)) 0 w1)
      as [[u | ex] w2]; simpl in *; rewrite Hloop, Htrace; split; try done.
    right. by eexists _, _.
  - simpl in *. rewrite Htrace. split; [done |]. by apply Hkind.
Qed.

(** X10: when the display names of the table are pairwise distinct and
    the gateway's answer ends with the list [vs], a call of [update()]
    that returns has stored, for every position of the table, the value
    of [vs] at that position, divided by the property's divisor if it
    has one, under the property's display name. *)
Theorem update_positional w (front vs : list value) (env' : E)
    (r : value) w' :
  NoDup (display_name <$> dict_values (get_prop_exp_dict (self w))) ->
  gateway_send "get_device_prop_exp"
    (VList [VList (VStr (sid (self w))
                     :: (VStr <$> dict_keys (get_prop_exp_dict (self w))))])
    (env w)
    = (Ok (VList (front ++ [VList vs])), env') ->
  update w = (Ok r, w') ->
  forall (j : nat) (prop : Property),
    dict_values (get_prop_exp_dict (self w)) !! j = Some prop ->
    exists v x,
      vs !! j = Some v
      /\ scaled prop v = Ok x
      /\ _props (self w') !! display_name prop = Some x.
Proof.
  intros Hnodup Hsend Hrun j prop Hj. unfold update in Hrun. run.
  destruct (get_prop_exp_dict (self w)) as [| entry table] eqn:Htable; [done |].
  remember (dict_values (entry :: table)) as props eqn:Hprops.
  rewrite (get_property_exp_list _ w front vs env' Hsend) in Hrun.
  destruct (Nat.eqb _ _); [| done].
  match type of Hrun with
  | context [update_loop ?values props ?i ?w1] =>
      destruct (update_loop values props i w1) as [[[] | ex] w2] eqn:Hloop
  end; [| done].
  injection Hrun as _ <-.
  by apply (update_loop_positional vs props 0%nat _ w2 Hloop Hnodup j prop).
Qed.
End UpdateInGeneral.

Lemma update_relay_witness :
  let w := Scenario.world Scenario.sensor
             (Scenario.script true [Ok (VList [VList [VStr "x"; VStr "y"]])] [] []) in
  trace (update w).2
  = [Send "get_device_prop_exp"
       (VList [VList [VStr "lumi.158d0001"; VStr "p1"; VStr "p2"]])]
  /\ exists msg cause, (update w).1 = Raise (DeviceException msg cause).
Proof.
  intros w.
  destruct (update_relay w) as [Htrace Hkind]; [done |].
  split; [exact Htrace |].
  vm_compute. by eexists _, _.
Defined.

Lemma update_positional_witness :
  let w := Scenario.world Scenario.sensor
             (Scenario.script true [Ok (VList [VList [VInt 7; VInt 25]])] [] []) in
  exists v x,
    [VInt 7; VInt 25] !! 1%nat = Some v
    /\ scaled Scenario.p2 v = Ok x
    /\ _props (self (update w).2) !! "p2" = Some x.
Proof.
  intros w.
  apply (update_positional w [] [VInt 7; VInt 25]
           (Scenario.script true [] [] []) VNone (update w).2);
    [compute_done | reflexivity | reflexivity | reflexivity].
Defined.

Lemma update_frame_witness :
  let w := Scenario.world Scenario.observed
             (Scenario.script true [Ok (VList [VList [VInt 5; VInt 100]])] [] []) in
  _props (self (update w).2) !! "motion" = _props (self w) !! "motion".
Proof.
  intros w. apply (proj2 (update_frame w)). compute_done.
Defined.

(** ** Battery and voltage *)

Section ReaderProperties.
Context {E : Type} `{Environment E}.
Variables EU ZIG3 : string.
Implicit Types (w : World E).


(** X12: on a battery-powered device exactly one of the two readers
    queries the gateway.  Behind a gateway of model EU or ZIG3,
    [get_battery()] returns the level it holds without any external call
    and [get_voltage()] fetches the property ["voltage"]; behind any other
    gateway [get_battery()] sends [get_battery] and [get_voltage()]
    returns the voltage it holds without any external call. *)
Theorem battery_voltage_exclusive w :
  _battery_powered (self w) = true ->
  if bool_decide (gateway_model (env w) ∈ [EU; ZIG3])
  then
    (exists wb,
       get_battery EU ZIG3 w = (Ok (battery (self w)), wb)
       /\ self wb = self w /\ env wb = env w
       /\ external (trace wb) = external (trace w))
    /\ external (trace (get_voltage EU ZIG3 w).2)
       = external (trace w) ++
           [Send "get_device_prop" (VList [VStr (sid (self w)); VStr "voltage"])]
  else
    (exists wv,
       get_voltage EU ZIG3 w = (Ok (voltage (self w)), wv)
       /\ self wv = self w /\ env wv = env w
       /\ external (trace wv) = external (trace w))
    /\ external (trace (get_battery EU ZIG3 w).2)
       = external (trace w) ++
           [Send "get_battery" (VList [VStr (sid (self w))])].
Proof.
  intros Hpowered.
  destruct (bool_decide (gateway_model (env w) ∈ [EU; ZIG3])) eqn:Hmodel.
  - split.
    + unfold get_battery, battery. run. rewrite Hpowered. simpl. rewrite Hmodel.
      simpl. eexists. split; [reflexivity |]. simpl.
      repeat split. apply external_log.
    + unfold get_voltage. run. rewrite Hpowered. simpl. rewrite Hmodel. simpl.
      pose proof (get_property_effects "voltage" w) as [_ Htrace].
      destruct (get_property "voltage" w) as [[r | ex] w1]; simpl in Htrace.
      * destruct (pop r) as [raw | ex]; simpl;
          [destruct (truediv raw (VInt 1000)); simpl |];
          by rewrite Htrace, external_app.
      * simpl. by rewrite Htrace, external_app.
  - split.
    + unfold get_voltage, voltage. run. rewrite Hpowered. simpl. rewrite Hmodel.
      simpl. eexists. split; [reflexivity |]. simpl.
      repeat split. apply external_log.
    + unfold get_battery. run. rewrite Hpowered. simpl. rewrite Hmodel. simpl.
      pose proof (send_outcome "get_battery" w) as Hsend.
      destruct (send "get_battery" w) as [[r | ex] w1].
      * destruct (gateway_send _ _ (env w)) as [answer env'].
        destruct Hsend as (_ & _ & Htrace & _).
        destruct (pop r) as [b | ex]; simpl; by rewrite Htrace, external_app.
      * destruct (gateway_send _ _ (env w)) as [answer env'].
        destruct Hsend as (_ & _ & Htrace & _).
        simpl. by rewrite Htrace, external_app.
Qed.

(** X13: on a battery-powered device behind a gateway of model EU or
    ZIG3, when the gateway's answer to the ["voltage"] fetch ends with the
    integer [mv] of millivolts, [get_voltage()] returns and caches the
    float [mv / 1000]. *)
Theorem get_voltage_millivolts w (front : list value) (mv : Z) (v : value)
    (env' : E) :
  _battery_powered (self w) = true ->
  gateway_model (env w) ∈ [EU; ZIG3] ->
  gateway_send "get_device_prop"
    (VList [VStr (sid (self w)); VStr "voltage"]) (env w)
    = (Ok (VList (front ++ [VInt mv])), env') ->
  int_truediv mv 1000 = Ok v ->
  exists w',
    get_voltage EU ZIG3 w = (Ok v, w')
    /\ voltage (self w') = v
    /\ self w' = set_voltage v (self w).
Proof.
  intros Hpowered Hmodel Hsend Hdiv.
  unfold get_voltage, get_property, voltage. run.
  rewrite Hpowered. simpl. rewrite (bool_decide_eq_true_2 _ Hmodel). simpl.
  rewrite Hsend. simpl.
  destruct (front ++ [VInt mv]) as [| x l] eqn:Hanswer; [by destruct front |].
  simpl. rewrite <- Hanswer, last_snoc. simpl.
  change (truediv (VInt mv) (VInt 1000)) with (int_truediv mv 1000).
  rewrite Hdiv. simpl. by eexists.
Qed.
End ReaderProperties.


Lemma battery_voltage_exclusive_witness :
  let w := Scenario.steady_world Scenario.powered "lumi.gateway.mgl03"
             (VList [VInt 3055]) in
  external (trace (get_voltage "lumi.gateway.mieu01" "lumi.gateway.mgl03" w).2)
  = [Send "get_device_prop" (VList [VStr "lumi.158d0001"; VStr "voltage"])].
Proof.
  intros w.
  exact (proj2 (battery_voltage_exclusive
                  "lumi.gateway.mieu01" "lumi.gateway.mgl03" w eq_refl)).
Defined.

Lemma get_voltage_millivolts_witness :
  let w := Scenario.steady_world Scenario.powered "lumi.gateway.mgl03"
             (VList [VInt 3055]) in
  exists w',
    get_voltage "lumi.gateway.mieu01" "lumi.gateway.mgl03" w
    = (Ok (VFloat (S754_finite false 6879248430808433 (-51))), w').
Proof.
  intros w.
  destruct (get_voltage_millivolts "lumi.gateway.mieu01" "lumi.gateway.mgl03"
              w [] 3055 (VFloat (S754_finite false 6879248430808433 (-51)))
              (served (env w)))
    as (w' & Hrun & _); [reflexivity | compute_done | reflexivity | reflexivity |].
  by exists w'.
Defined.

(** ** Observers *)

Section DictUpdates.
Context {V : Type}.
Implicit Types (d : dict V) (k : string) (v : V).

Lemma dict_get_set_eq k v d : dict_get k (dict_set k v d) = Some v.
Proof.
  induction d as [| [k0 v0] d IH]; simpl.
  - by rewrite String.eqb_refl.
  - destruct (String.eqb k0 k) eqn:Heq; simpl; by rewrite Heq.
Qed.

Lemma dict_get_set_ne k k' v d :
  k' <> k -> dict_get k' (dict_set k v d) = dict_get k' d.
Proof.
  intros Hne. induction d as [| [k0 v0] d IH]; simpl.
  - apply not_eq_sym, String.eqb_neq in Hne. by rewrite Hne.
  - destruct (String.eqb k0 k) eqn:Heq; simpl.
    + apply String.eqb_eq in Heq as ->.
      apply not_eq_sym, String.eqb_neq in Hne. by rewrite Hne.
    + by rewrite IH.
Qed.

Lemma dict_keys_set k v d :
  dict_keys (dict_set k v d)
  = if dict_mem k d then dict_keys d else dict_keys d ++ [k].
Proof.
  unfold dict_mem, dict_keys. induction d as [| [k0 v0] d IH]; simpl; [done |].
  destruct (String.eqb k0 k) eqn:Heq; simpl; [done |].
  change (list_fmap _ _ fst (dict_set k v d)) with ((dict_set k v d).*1).
  rewrite IH. by destruct (dict_get k d).
Qed.

Lemma dict_pop_set_fresh k v d :
  dict_get k d = None -> dict_pop k (dict_set k v d) = Some (v, d).
Proof.
  induction d as [| [k0 v0] d IH]; simpl.
  - by rewrite String.eqb_refl.
  - destruct (String.eqb k0 k) eqn:Heq; [done |]. intros Hfresh.
    simpl. by rewrite Heq, (IH Hfresh).
Qed.
End DictUpdates.

Section ObserverProperties.
Context {E : Type} `{Environment E}.
Implicit Types (w : World E).

(** X14: [register_callback(id, callback)] always returns.  Afterwards
    [id] is bound to [callback] and every other id to what it was bound
    to.  A new id goes to the end of the dispatch order; an id that was
    registered keeps its place, and the overwrite is logged as an error.
    Nothing but the registry changes. *)
Theorem register_callback_outcome (id : string) (callback : GatewayCallback) w :
  exists w',
    register_callback id callback w = (Ok VNone, w')
    /\ dict_get id (_registered_callbacks (self w')) = Some callback
    /\ (forall id', id' <> id ->
          dict_get id' (_registered_callbacks (self w'))
          = dict_get id' (_registered_callbacks (self w)))
    /\ dict_keys (_registered_callbacks (self w'))
       = (if dict_mem id (_registered_callbacks (self w))
          then dict_keys (_registered_callbacks (self w))
          else dict_keys (_registered_callbacks (self w)) ++ [id])
    /\ self w' = set_registered_callbacks
                   (fun _ => _registered_callbacks (self w')) (self w)
    /\ env w' = env w
    /\ trace w'
       = (if dict_mem id (_registered_callbacks (self w))
          then trace w ++
                 [Log ERROR
                    "A callback with id '%s' was already registed, overwriting previous callback"
                    [id]]
          else trace w).
Proof.
  unfold register_callback. run.
  destruct (dict_mem id (_registered_callbacks (self w))) eqn:Hmem; simpl;
    (eexists; split; [reflexivity |]); simpl;
    rewrite dict_get_set_eq, dict_keys_set, Hmem;
    repeat split; try done; intros id' Hne; by apply dict_get_set_ne.
Qed.

(** X15: registering an observer under an id that is not in use and then
    removing that id leaves the world exactly as it was. *)
Theorem register_then_remove (id : string) (callback : GatewayCallback) w :
  dict_get id (_registered_callbacks (self w)) = None ->
  (register_callback id callback;; remove_callback id) w = (Ok VNone, w).
Proof.
  intros Hfresh. unfold register_callback, remove_callback, dict_mem. run.
  rewrite Hfresh. simpl. rewrite (dict_pop_set_fresh _ _ _ Hfresh). simpl.
  destruct w as [d e t]. by destruct d.
Qed.

End ObserverProperties.

Lemma register_then_remove_witness :
  let w := Scenario.world Scenario.observed (Scenario.script true [] [] []) in
  (register_callback "mqtt" "on_mqtt";; remove_callback "mqtt") w = (Ok VNone, w).
Proof.
  intros w. apply register_then_remove. reflexivity.
Defined.

Section DispatchInGeneral.
Context {E : Type} `{Environment E}.
Implicit Types (w : World E).

(** X17: an observer that raises aborts the dispatch.  For a declared
    action, when the first registered observer raises, [push_callback]
    raises the same exception; no other observer has been invoked, and
    the event has already been applied to the cache. *)
Theorem push_callback_observer_raises (action params : string) w
    (table : dict PushEvent) (event : PushEvent)
    (id : string) (callback : GatewayCallback)
    (rest : dict GatewayCallback) (ex : exn) (env' : E) :
  push_events (self w) = Some table ->
  dict_get action table = Some event ->
  _registered_callbacks (self w) = (id, callback) :: rest ->
  invoke callback action params (env w) = (Raise ex, env') ->
  exists w',
    push_callback action params w = (Raise ex, w')
    /\ trace w' = trace w ++ [Invoke callback action params]
    /\ _props (self w')
       = match pe_property event with
         | Some prop =>
             if is_not_None (pe_value event)
             then <[prop := default VNone (pe_value event)]> (_props (self w))
             else _props (self w)
         | None => _props (self w)
         end.
Proof.
  intros Htable Hevent Hregistry Hraise.
  unfold push_callback, push_event, is_push_event, dict_mem. run.
  repeat (first [rewrite Htable | rewrite Hevent]; simpl).
  destruct (pe_property event) as [prop |];
    [destruct (is_not_None (pe_value event)) |]; simpl;
    rewrite Hregistry; simpl; run; simpl; rewrite Hraise; by eexists.
Qed.
End DispatchInGeneral.

Lemma push_callback_observer_raises_witness :
  let w := Scenario.world Scenario.observed
             {| s_model := "lumi.gateway.v3"; s_push_server := true;
                s_send := []; s_subscribe := []; s_unsubscribe := [];
                s_invoke := [Raise (BuiltinError "observer failed"); Ok VNone] |} in
  exists w',
    push_callback "motion" "{}" w = (Raise (BuiltinError "observer failed"), w')
    /\ trace w' = [Invoke "on_ha" "motion" "{}"].
Proof.
  intros w.
  destruct (push_callback_observer_raises "motion" "{}" w
              [("motion", Scenario.motion); ("no_motion", Scenario.no_motion)]
              Scenario.motion "ha" "on_ha" [("cli", "on_cli")]
              (BuiltinError "observer failed")
              {| s_model := "lumi.gateway.v3"; s_push_server := true;
                 s_send := []; s_subscribe := []; s_unsubscribe := [];
                 s_invoke := [Ok VNone] |})
    as (w' & Hrun & Htrace & _); [reflexivity .. |].
  exists w'. by split.
Defined.

(** ** Subscribing, in general *)

Lemma set_event_ids_same (d : SubDevice) :
  set_event_ids (fun _ => _event_ids d) d = d.
Proof. by destruct d. Qed.

Lemma dict_get_of_key {V : Type} (k : string) (d : dict V) :
  k ∈ dict_keys d -> exists v, dict_get k d = Some v /\ (k, v) ∈ d.
Proof.
  unfold dict_keys. induction d as [| [k0 v0] d IH]; simpl.
  - by intros ?%elem_of_nil.
  - intros Hin. destruct (String.eqb k0 k) eqn:Heq.
    + apply String.eqb_eq in Heq as ->. exists v0. split; [done |].
      apply list_elem_of_here.
    + apply elem_of_cons in Hin as [-> | Hin].
      * by rewrite String.eqb_refl in Heq.
      * destruct (IH Hin) as (v & Hget & Hmem). exists v. split; [done |].
        by apply list_elem_of_further.
Qed.

Section SubscribeInGeneral.
Context {E : Type} `{Environment E}.
Implicit Types (w : World E).

(** Whatever its outcome, the loop only appends handles, at most one per
    action, and touches nothing else in the proxy. *)
Lemma subscribe_loop_appends (actions : list string) :
  forall (result : bool) w,
    exists ids,
      _event_ids (self (subscribe_loop actions result w).2)
      = _event_ids (self w) ++ ids
      /\ (length ids <= length actions)%nat
      /\ self (subscribe_loop actions result w).2
         = set_event_ids
             (fun _ => _event_ids (self (subscribe_loop actions result w).2))
             (self w).
Proof.
  induction actions as [| a rest IH]; intros result w.
  - exists []. simpl. by rewrite app_nil_r, set_event_ids_same.
  - assert (Hstay : exists ids : list string,
              _event_ids (self w) = _event_ids (self w) ++ ids
              /\ (length ids <= length (a :: rest))%nat
              /\ self w = set_event_ids (fun _ => _event_ids (self w)) (self w)).
    { exists []. rewrite app_nil_r, set_event_ids_same. simpl.
      repeat split; lia. }
    simpl. unfold push_event, required_extra. run.
    destruct (push_events (self w)) as [table |]; simpl; [| done].
    destruct (dict_get a table) as [ev |]; simpl; [| done].
    destruct (pe_extra ev) as [x |]; simpl; [| done].
    destruct (subscribe_event _ (env w)) as [[[i |] | ex] env1]; simpl.
    + match goal with
      | |- context [subscribe_loop rest result ?w1] =>
          destruct (IH result w1) as (ids & Hids & Hlen & Hself)
      end.
      exists (i :: ids). simpl in *. rewrite Hids, <- app_assoc.
      repeat split; [lia |].
      etrans; [exact Hself |]. simpl. by rewrite Hids, <- app_assoc.
    + match goal with
      | |- context [subscribe_loop rest false ?w1] =>
          destruct (IH false w1) as (ids & Hids & Hlen & Hself)
      end.
      exists ids. simpl in *. repeat split; [done | lia | done].
    + exists []. simpl. rewrite app_nil_r, set_event_ids_same.
      repeat split; lia.
Qed.

(** X18: whatever its outcome (True, False or an exception),
    [subscribe_events()] keeps every handle that was held and only
    appends new ones after them, at most one per declared event; no other
    attribute of the proxy changes. *)
Theorem subscribe_events_appends w :
  exists ids,
    _event_ids (self (subscribe_events w).2) = _event_ids (self w) ++ ids
    /\ (length ids
        <= length (default [] (dict_keys <$> push_events (self w))))%nat
    /\ self (subscribe_events w).2
       = set_event_ids (fun _ => _event_ids (self (subscribe_events w).2))
           (self w).
Proof.
  unfold subscribe_events. run.
  destruct (has_push_server (env w)); simpl.
  - destruct (subscribe_loop_appends
                (default [] (dict_keys <$> push_events (self w))) true w)
      as (ids & Hids & Hlen & Hself).
    exists ids.
    by destruct (subscribe_loop _ true w) as [[result | ex] w1].
  - exists []. rewrite app_nil_r, set_event_ids_same. simpl.
    repeat split; lia.
Qed.

Lemma subscribe_loop_all_accepted (table : dict PushEvent)
    (Haccept : forall info (e : E),
        exists i e', subscribe_event info e = (Ok (Some i), e'))
    (actions : list string) :
  forall w,
    push_events (self w) = Some table ->
    (forall a, a ∈ actions ->
       exists ev x, dict_get a table = Some ev /\ pe_extra ev = Some x) ->
    exists w' ids,
      subscribe_loop actions true w = (Ok true, w')
      /\ length ids = length actions
      /\ _event_ids (self w') = _event_ids (self w) ++ ids.
Proof.
  induction actions as [| a rest IH]; intros w Htable Hextras.
  - exists w, []. simpl. by rewrite app_nil_r.
  - destruct (Hextras a) as (ev & x & Hget & Hx); [apply list_elem_of_here |].
    destruct (Haccept (make_event_info (self w) a ev x) (env w))
      as (i & env1 & Hanswer).
    rewrite (subscribe_loop_step w a rest true table ev x (Some i) env1
               Htable Hget Hx Hanswer).
    match goal with
    | |- context [subscribe_loop rest true ?w1] =>
        destruct (IH w1) as (w' & ids & Hrun & Hlen & Hids)
    end.
    + done.
    + intros a' Ha'. apply Hextras. by apply list_elem_of_further.
    + exists w', (i :: ids). split; [done |]. simpl in *.
      split; [by rewrite Hlen |]. by rewrite Hids, <- app_assoc.
Qed.

(** X19: when the gateway has a push server that answers every request
    with a handle, and every declared event has its ["extra"] entry,
    [subscribe_events()] returns [True] and has appended exactly one
    handle per declared event. *)
Theorem subscribe_events_all_accepted w (table : dict PushEvent) :
  has_push_server (env w) = true ->
  (forall info (e : E), exists i e', subscribe_event info e = (Ok (Some i), e')) ->
  push_events (self w) = Some table ->
  (forall a ev, (a, ev) ∈ table -> is_Some (pe_extra ev)) ->
  exists w' ids,
    subscribe_events w = (Ok (VBool true), w')
    /\ length ids = length table
    /\ _event_ids (self w') = _event_ids (self w) ++ ids.
Proof.
  intros Hserver Haccept Htable Hextras.
  unfold subscribe_events. run. rewrite Hserver. simpl. rewrite Htable.
  change (default [] (dict_keys <$> Some table)) with (dict_keys table).
  destruct (subscribe_loop_all_accepted table Haccept (dict_keys table) w Htable)
    as (w' & ids & -> & Hlen & Hids).
  - intros a Ha. destruct (dict_get_of_key a table Ha) as (ev & Hget & Hmem).
    destruct (Hextras a ev Hmem) as [x Hx]. by exists ev, x.
  - exists w', ids. split; [done |]. split; [| done].
    rewrite Hlen. unfold dict_keys. by rewrite length_fmap.
Qed.

(** The loop over a list of actions is the loop over a first part
    followed, unless that raised, by the loop over the rest. *)
Lemma subscribe_loop_app (before rest : list string) :
  forall (flag : bool) w,
    subscribe_loop (before ++ rest) flag w
    = match subscribe_loop before flag w with
      | (Ok flag', w0) => subscribe_loop rest flag' w0
      | (Raise e, w0) => (Raise e, w0)
      end.
Proof.
  induction before as [| a before IH]; intros flag w; [done |].
  simpl. unfold push_event, required_extra. run.
  destruct (push_events (self w)) as [table |]; simpl; [| done].
  destruct (dict_get a table) as [ev |]; simpl; [| done].
  destruct (pe_extra ev) as [x |]; simpl; [| done].
  destruct (subscribe_event _ (env w)) as [[[i |] | ex] env1]; simpl;
    [apply IH | apply IH | done].
Qed.

Lemma subscribe_loop_keeps_table (actions : list string) (flag : bool) w :
  push_events (self (subscribe_loop actions flag w).2) = push_events (self w).
Proof.
  destruct (subscribe_loop_appends actions flag w) as (ids & _ & _ & ->). done.
Qed.

(** A run of the loop that raises has gone through a first part of the
    actions without raising and has stopped at the next one: either that
    event has no ["extra"] entry, or the push server raised on the
    request made for it, in the state the earlier requests had left. *)
Lemma subscribe_loop_stops (table : dict PushEvent) (actions : list string) :
  forall (flag0 : bool) w (e : exn) w',
    push_events (self w) = Some table ->
    (forall a, a ∈ actions -> a ∈ dict_keys table) ->
    subscribe_loop actions flag0 w = (Raise e, w') ->
    exists before a after ev flag w0,
      actions = before ++ a :: after
      /\ subscribe_loop before flag0 w = (Ok flag, w0)
      /\ dict_get a table = Some ev
      /\ match pe_extra ev with
         | None => e = KeyError "extra" /\ w' = w0
         | Some x =>
             exists env1,
               subscribe_event (make_event_info (self w0) a ev x) (env w0)
               = (Raise e, env1)
               /\ w' = {| self := self w0; env := env1;
                          trace := trace w0 ++
                            [SubscribeEvent (make_event_info (self w0) a ev x)] |}
         end.
Proof.
  induction actions as [| a rest IH]; intros flag0 w e w' Htable Hkeys Hrun.
  - done.
  - destruct (dict_get_of_key a table) as (ev & Hget & Hmem);
      [apply Hkeys, list_elem_of_here |].
    assert (Hrest : forall a', a' ∈ rest -> a' ∈ dict_keys table).
    { intros a' Ha'. by apply Hkeys, list_elem_of_further. }
    destruct (pe_extra ev) as [x |] eqn:Hx.
    + destruct (subscribe_event (make_event_info (self w) a ev x) (env w))
        as [[answer | ex] env1] eqn:Hanswer.
      * pose proof (subscribe_loop_step w a rest flag0 table ev x answer env1
                      Htable Hget Hx Hanswer) as Hstep.
        rewrite Hstep in Hrun.
        apply IH in Hrun
          as (before & a' & after & ev' & flag & w0 & -> & Hbefore & Hrest');
          [| by destruct answer | done].
        exists (a :: before), a', after, ev', flag, w0.
        split; [done |]. split; [| done].
        by rewrite (subscribe_loop_step w a before flag0 table ev x answer env1
                      Htable Hget Hx Hanswer).
      * exists [], a, rest, ev, flag0, w. rewrite Hx.
        split; [done |]. split; [done |]. split; [done |].
        exists env1. simpl in Hrun. unfold push_event, required_extra in Hrun.
        run. rewrite Htable, Hget, Hx, Hanswer in Hrun.
        by injection Hrun as <- <-.
    + exists [], a, rest, ev, flag0, w. rewrite Hx.
      split; [done |]. split; [done |]. split; [done |].
      simpl in Hrun. unfold push_event, required_extra in Hrun. run.
      rewrite Htable, Hget, Hx in Hrun. by injection Hrun as <- <-.
Qed.

(** X20: [subscribe_events()] raises in exactly three cases.  (1) The
    gateway has no push server: it raises the [DeviceException] "Can not
    install push callback without a PushServer instance" and has changed
    nothing.  Otherwise the requests for a first part of the declared
    events, in table order, have been made without an exception, and at
    the next declared event either (2) the event has no ["extra"] entry
    and the call raises [KeyError] for ["extra"] with the world as those
    requests left it, or (3) the push server raises on the request for
    that event, made in the gateway state those requests left, and the
    call raises that very exception right after recording the request. *)
Theorem subscribe_events_raises w (e : exn) w' :
  subscribe_events w = (Raise e, w')
  <->
  (has_push_server (env w) = false
   /\ e = DeviceException
            "Can not install push callback without a PushServer instance" None
   /\ w' = w)
  \/ (has_push_server (env w) = true
      /\ exists table before a after ev flag w0,
           push_events (self w) = Some table
           /\ dict_keys table = before ++ a :: after
           /\ subscribe_loop before true w = (Ok flag, w0)
           /\ dict_get a table = Some ev
           /\ match pe_extra ev with
              | None => e = KeyError "extra" /\ w' = w0
              | Some x =>
                  exists env1,
                    subscribe_event (make_event_info (self w0) a ev x) (env w0)
                    = (Raise e, env1)
                    /\ w' = {| self := self w0; env := env1;
                               trace := trace w0 ++
                                 [SubscribeEvent
                                    (make_event_info (self w0) a ev x)] |}
              end).
Proof.
  split.
  - unfold subscribe_events. run.
    destruct (has_push_server (env w)); simpl.
    + destruct (push_events (self w)) as [table |] eqn:Htable; simpl; [| done].
      destruct (subscribe_loop (dict_keys table) true w)
        as [[result | ex] w1] eqn:Hloop; [done |].
      intros [= <- <-]. right. split; [done |].
      destruct (subscribe_loop_stops table (dict_keys table) true w ex w1
                  Htable ltac:(done) Hloop)
        as (before & a & after & ev & flag & w0 & Hkeys & Hbefore & Hget & Hstop).
      by exists table, before, a, after, ev, flag, w0.
    + intros [= <- <-]. by left.
  - intros [(Hserver & -> & ->)
           | (Hserver & table & before & a & after & ev & flag & w0
              & Htable & Hkeys & Hbefore & Hget & Hstop)].
    + unfold subscribe_events. run. by rewrite Hserver.
    + unfold subscribe_events. run. rewrite Hserver. simpl. rewrite Htable.
      change (default [] (dict_keys <$> Some table)) with (dict_keys table).
      rewrite Hkeys, subscribe_loop_app, Hbefore.
      pose proof (subscribe_loop_keeps_table before true w) as Htable0.
      rewrite Hbefore, Htable in Htable0. simpl in Htable0.
      simpl. unfold push_event, required_extra. run.
      rewrite Htable0, Hget.
      destruct (pe_extra ev) as [x |].
      * destruct Hstop as (env1 & Hraise & ->). by rewrite Hraise.
      * by destruct Hstop as (-> & ->).
Qed.
End SubscribeInGeneral.

Lemma subscribe_events_all_accepted_witness :
  let w := Scenario.steady_world Scenario.sensor "lumi.gateway.v3" VNone in
  exists w',
    subscribe_events w = (Ok (VBool true), w')
    /\ _event_ids (self w') = ["handle:motion"; "handle:no_motion"].
Proof.
  intros w.
  destruct (subscribe_events_all_accepted w
              [("motion", Scenario.motion); ("no_motion", Scenario.no_motion)])
    as (w' & ids & Hrun & _ & _).
  - reflexivity.
  - intros info e. by eexists _, _.
  - reflexivity.
  - intros a ev. rewrite !elem_of_cons, elem_of_nil.
    intros [[= -> ->] | [[= -> ->] | []]]; by eexists.
  - exists w'. split; [exact Hrun |].
    vm_compute in Hrun. by injection Hrun as <-.
Defined.

Lemma subscribe_events_raises_witness :
  let w := Scenario.world Scenario.sensor
             (Scenario.script true []
                [Ok (Some "id1"); Raise (BuiltinError "timeout")] []) in
  exists w',
    subscribe_events w = (Raise (BuiltinError "timeout"), w')
    /\ _event_ids (self w') = ["id1"]
    /\ env w' = Scenario.script true [] [] [].
Proof.
  intros w. eexists. split; [| split].
  - apply (proj2 (subscribe_events_raises (E := Script) w
                    (BuiltinError "timeout") _)).
    right. split; [reflexivity |].
    exists [("motion", Scenario.motion); ("no_motion", Scenario.no_motion)],
      ["motion"], "no_motion", [], Scenario.no_motion, true,
      (subscribe_loop ["motion"] true w).2.
    split; [reflexivity |]. split; [reflexivity |]. split; [reflexivity |].
    split; [reflexivity |].
    exists (Scenario.script true [] [] []). split; reflexivity.
  - reflexivity.
  - reflexivity.
Defined.

(** ** Releasing, in general *)

Lemma length_odds (l : list string) :
  length (odds l) = Nat.div2 (length l)
  /\ forall a, length (odds (a :: l)) = Nat.div2 (S (length l)).
Proof.
  induction l as [| b l [IHeven IHodd]]; [done |].
  split; [apply IHodd |].
  intros a. simpl. by rewrite IHeven.
Qed.

Lemma list_remove_sublist (x : string) (l l' : list string) :
  list_remove x l = Some l' -> sublist l' l.
Proof.
  revert l'. induction l as [| y l IH]; intros l'; simpl; [done |].
  destruct (String.eqb y x).
  - intros [= ->]. by apply sublist_cons.
  - destruct (list_remove x l) as [l'' |]; [| done].
    intros [= <-]. by apply sublist_skip, IH.
Qed.

Section UnsubscribeInGeneral.
Context {E : Type} `{Environment E}.
Implicit Types (w : World E).

Lemma unsubscribe_round_frame (event_id : string) w :
  sublist
    (_event_ids (self ((ps_unsubscribe_event event_id;;
                        remove_event_id event_id) w).2))
    (_event_ids (self w))
  /\ self ((ps_unsubscribe_event event_id;; remove_event_id event_id) w).2
     = set_event_ids
         (fun _ => _event_ids
                     (self ((ps_unsubscribe_event event_id;;
                             remove_event_id event_id) w).2))
         (self w).
Proof.
  unfold ps_unsubscribe_event, remove_event_id. run.
  destruct (has_push_server (env w)); simpl;
    [| by rewrite set_event_ids_same].
  destruct (unsubscribe_event event_id (env w)) as [[v | ex] env1]; simpl;
    [| by rewrite set_event_ids_same].
  destruct (list_remove event_id (_event_ids (self w))) as [ids |] eqn:Hremove;
    simpl; [| by rewrite set_event_ids_same].
  split; [by apply list_remove_sublist in Hremove | done].
Qed.

Lemma unsubscribe_loop_frame (fuel : nat) :
  forall (i : nat) w r w',
    unsubscribe_loop fuel i w = Some (r, w') ->
    sublist (_event_ids (self w')) (_event_ids (self w))
    /\ self w' = set_event_ids (fun _ => _event_ids (self w')) (self w).
Proof.
  induction fuel as [| fuel IH]; intros i w r w'; simpl.
  - destruct (_event_ids (self w) !! i); [done |].
    intros [= <- <-]. by rewrite set_event_ids_same.
  - destruct (_event_ids (self w) !! i) as [event_id |].
    2: { intros [= <- <-]. by rewrite set_event_ids_same. }
    pose proof (unsubscribe_round_frame event_id w) as [Hsub Hself].
    destruct ((ps_unsubscribe_event event_id;; remove_event_id event_id) w)
      as [[u | ex] w1]; simpl in *.
    + intros Hrun. apply IH in Hrun as [Hsub' Hself'].
      split; [by etrans |]. rewrite Hself', Hself. done.
    + by intros [= <- <-].
Qed.

(** X21: [unsubscribe_events()] always comes to an end, returning or
    raising.  Whatever the outcome, the handles it leaves are handles that
    were held, in their old order (it never adds or reorders one), and no
    other attribute of the proxy changes. *)
Theorem unsubscribe_events_only_drops w :
  exists r w',
    unsubscribe_events w = Some (r, w')
    /\ sublist (_event_ids (self w')) (_event_ids (self w))
    /\ self w' = set_event_ids (fun _ => _event_ids (self w')) (self w).
Proof.
  destruct (unsubscribe_events_returns w) as [[r w'] Hrun].
  exists r, w'. split; [done |].
  by apply (unsubscribe_loop_frame _ _ _ _ _ Hrun).
Qed.

(** X22: with pairwise distinct handles and a push server that accepts
    every release, [unsubscribe_events()] returns having requested the
    release of the handles at positions 0, 2, 4, ... only, in that order;
    the handles at the odd positions are still held, so one call leaves
    half of the handles (rounded down) behind. *)
Theorem unsubscribe_events_releases_every_other w :
  (forall e : E, has_push_server e = true) ->
  (forall (event_id : string) (e : E),
     exists v e', unsubscribe_event event_id e = (Ok v, e')) ->
  NoDup (_event_ids (self w)) ->
  exists w',
    unsubscribe_events w = Some (Ok VNone, w')
    /\ trace w' = trace w ++ (UnsubscribeEvent <$> evens (_event_ids (self w)))
    /\ _event_ids (self w') = odds (_event_ids (self w))
    /\ length (_event_ids (self w')) = Nat.div2 (length (_event_ids (self w))).
Proof.
  intros Hserver Hrelease Hnodup.
  destruct (unsubscribe_events_skips w Hserver Hrelease Hnodup)
    as (w' & Hrun & Hleft & Htrace).
  exists w'. repeat split; try done.
  rewrite Hleft. apply length_odds.
Qed.

(** X23: no atomicity.  When the release of the first handle raises,
    [unsubscribe_events()] raises the same exception at once: every
    handle, the first included, is still held and no further release has
    been requested. *)
Theorem unsubscribe_events_failure_keeps_handles w (event_id : string)
    (rest : list string) (ex : exn) (env' : E) :
  _event_ids (self w) = event_id :: rest ->
  has_push_server (env w) = true ->
  unsubscribe_event event_id (env w) = (Raise ex, env') ->
  unsubscribe_events w
  = Some (Raise ex,
          {| self := self w; env := env';
             trace := trace w ++ [UnsubscribeEvent event_id] |}).
Proof.
  intros Hids Hserver Hraise.
  unfold unsubscribe_events. rewrite Hids. simpl. rewrite Hids. simpl.
  unfold ps_unsubscribe_event. run. rewrite Hserver. simpl.
  by rewrite Hraise.
Qed.

(** X24: on a gateway without push server, [unsubscribe_events()] with at
    least one handle held raises [AttributeError] (not a
    [DeviceException]) and changes nothing; with no handle held it
    returns without looking at the gateway. *)
Theorem unsubscribe_events_without_push_server w :
  has_push_server (env w) = false ->
  unsubscribe_events w
  = Some (match _event_ids (self w) with
          | [] => Ok VNone
          | _ => Raise AttributeError
          end, w).
Proof.
  intros Hserver. unfold unsubscribe_events.
  destruct (_event_ids (self w)) as [| event_id rest] eqn:Hids; simpl;
    rewrite Hids; simpl; [done |].
  unfold ps_unsubscribe_event. run. by rewrite Hserver.
Qed.
End UnsubscribeInGeneral.

Lemma unsubscribe_events_releases_every_other_witness :
  let w := Scenario.steady_world Scenario.crowded "lumi.gateway.v3" VNone in
  exists w',
    unsubscribe_events w = Some (Ok VNone, w')
    /\ trace w' = [UnsubscribeEvent "a"; UnsubscribeEvent "c"; UnsubscribeEvent "e"]
    /\ _event_ids (self w') = ["b"; "d"].
Proof.
  intros w.
  destruct (unsubscribe_events_releases_every_other w)
    as (w' & Hrun & Htrace & Hleft & _).
  - done.
  - intros event_id e. by eexists _, _.
  - compute_done.
  - by exists w'.
Defined.

Lemma unsubscribe_events_failure_keeps_handles_witness :
  let w := Scenario.world Scenario.subscribed
             (Scenario.script true [] [] [Raise (BuiltinError "timeout")]) in
  exists w',
    unsubscribe_events w = Some (Raise (BuiltinError "timeout"), w')
    /\ _event_ids (self w') = ["a"; "b"].
Proof.
  intros w. eexists. split.
  - apply (unsubscribe_events_failure_keeps_handles w "a" ["b"]
             (BuiltinError "timeout") (Scenario.script true [] [] []));
      reflexivity.
  - reflexivity.
Defined.

Lemma unsubscribe_events_without_push_server_witness :
  let w := Scenario.world Scenario.subscribed (Scenario.script false [] [] []) in
  unsubscribe_events w = Some (Raise AttributeError, w).
Proof.
  intros w. exact (unsubscribe_events_without_push_server w eq_refl).
Defined.

(** ** Construction *)

Lemma dict_set_elem {V : Type} (k k' : string) (v v' : V) (d : dict V) :
  (k', v') ∈ dict_set k v d -> (k', v') = (k, v) \/ (k', v') ∈ d.
Proof.
  induction d as [| [k0 v0] d IH]; simpl.
  - intros Hin%list_elem_of_singleton. by left.
  - destruct (String.eqb k0 k) eqn:Heq.
    + apply String.eqb_eq in Heq as ->.
      intros [-> | Hin]%elem_of_cons; [by left |].
      right. by apply list_elem_of_further.
    + intros [-> | Hin]%elem_of_cons; [right; apply list_elem_of_here |].
      destruct (IH Hin) as [-> | Hd]; [by left |].
      right. by apply list_elem_of_further.
Qed.

(** What the loop of [__init__] builds from the configured properties. *)
Lemma init_properties_spec (properties : list Property) :
  forall (props : gmap string value) (exp : dict Property),
    (forall k, is_Some ((init_properties properties props exp).1 !! k)
               <-> is_Some (props !! k) \/ k ∈ display_name <$> properties)
    /\ (forall k, k ∉ display_name <$> properties ->
                  (init_properties properties props exp).1 !! k = props !! k)
    /\ (NoDup (dict_keys exp) ->
        NoDup (dict_keys (init_properties properties props exp).2))
    /\ (forall k p, (k, p) ∈ (init_properties properties props exp).2 ->
          (k, p) ∈ exp
          \/ (p ∈ properties /\ prop_property p = k
              /\ prop_get p = Some "get_property_exp"))
    /\ (forall k, k ∈ dict_keys exp ->
          k ∈ dict_keys (init_properties properties props exp).2)
    /\ (forall p, p ∈ properties -> prop_get p = Some "get_property_exp" ->
          prop_property p ∈ dict_keys (init_properties properties props exp).2).
Proof.
  induction properties as [| prop rest IH]; intros props exp.
  - simpl. repeat split; try done.
    + by left.
    + intros [Hk | Hk%elem_of_nil]; done.
    + by left.
    + by intros p Hp%elem_of_nil.
  - cbn [init_properties].
    set (props1 := <[display_name prop := default VNone (prop_default prop)]> props).
    set (exp1 := match prop_get prop with
                 | Some g => if String.eqb g "get_property_exp"
                             then dict_set (prop_property prop) prop exp
                             else exp
                 | None => exp
                 end).
    destruct (IH props1 exp1) as (Hdom & Hother & Hnodup & Hentries & Hkeys & Hall).
    assert (Hexp1 : forall k p, (k, p) ∈ exp1 ->
              (k, p) ∈ exp
              \/ (p = prop /\ prop_property p = k
                  /\ prop_get p = Some "get_property_exp")).
    { intros k p. unfold exp1.
      destruct (prop_get prop) as [g |] eqn:Hget; [| by left].
      destruct (String.eqb g "get_property_exp") eqn:Hg; [| by left].
      apply String.eqb_eq in Hg as ->.
      intros [[= -> ->] | Hin]%dict_set_elem; [by right | by left]. }
    assert (Hkeys1 : forall k, k ∈ dict_keys exp -> k ∈ dict_keys exp1).
    { intros k Hk. unfold exp1.
      destruct (prop_get prop) as [g |]; [| done].
      destruct (String.eqb g "get_property_exp"); [| done].
      apply dict_set_keys. by right. }
    split; [| split; [| split; [| split; [| split]]]].
    + intros k. rewrite Hdom. unfold props1. rewrite fmap_cons, elem_of_cons.
      destruct (decide (k = display_name prop)) as [-> | Hne].
      * rewrite lookup_insert_eq. split; [| by eauto].
        intros _. right. by left.
      * rewrite lookup_insert_ne by done. tauto.
    + intros k [Hne Hk]%not_elem_of_cons. rewrite (Hother k Hk).
      unfold props1. by rewrite lookup_insert_ne.
    + intros Hnd. apply Hnodup. unfold exp1.
      destruct (prop_get prop) as [g |]; [| done].
      destruct (String.eqb g "get_property_exp"); [| done].
      by apply dict_set_NoDup.
    + intros k p Hin. destruct (Hentries k p Hin) as [Hin1 | (Hp & Hk & Hg)].
      * destruct (Hexp1 k p Hin1) as [Hexp | (-> & Hk & Hg)]; [by left |].
        right. split; [apply list_elem_of_here | done].
      * right. split; [by apply list_elem_of_further | done].
    + intros k Hk. by apply Hkeys, Hkeys1.
    + intros p [-> | Hp]%elem_of_cons Hg; [| by apply Hall].
      apply Hkeys. unfold exp1. rewrite Hg. simpl.
      apply dict_set_keys. by left.
Qed.

Lemma init_properties_defaults (properties : list Property) :
  forall (props : gmap string value) (exp : dict Property),
    NoDup (display_name <$> properties) ->
    forall p, p ∈ properties ->
      (init_properties properties props exp).1 !! display_name p
      = Some (default VNone (prop_default p)).
Proof.
  induction properties as [| prop rest IH]; intros props exp Hnodup p Hp.
  - by apply elem_of_nil in Hp.
  - rewrite fmap_cons in Hnodup. apply NoDup_cons in Hnodup as [Hfresh Hnodup].
    simpl. apply elem_of_cons in Hp as [-> | Hp]; [| by apply IH].
    match goal with
    | |- (init_properties rest ?props1 ?exp1).1 !! _ = _ =>
        destruct (init_properties_spec rest props1 exp1) as (_ & Hother & _)
    end.
    rewrite (Hother _ Hfresh). apply lookup_insert_eq.
Qed.

(** The properties a model configuration declares. *)
Lemma configured_init (dev_info : SubDeviceInfo) (model_info : option ModelInfo) :
  _props (__init__ dev_info model_info)
  = (init_properties
       (default [] (mi_properties (default empty_model_info model_info))) ∅ []).1
  /\ get_prop_exp_dict (__init__ dev_info model_info)
     = (init_properties
          (default [] (mi_properties (default empty_model_info model_info))) ∅ []).2.
Proof.
  unfold __init__. by destruct (init_properties _ _ _).
Qed.

(** X25: the batched-fetch table [__init__] builds.  Its keys are
    pairwise distinct; every entry is a configured property whose
    retrieval method is ["get_property_exp"], stored under its own wire
    name, and whose display name has a cache entry; and every configured
    property with that retrieval method has its wire name among the
    keys. *)
Theorem init_batch_table (dev_info : SubDeviceInfo) (model_info : option ModelInfo) :
  let d := __init__ dev_info model_info in
  let properties :=
    default [] (mi_properties (default empty_model_info model_info)) in
  NoDup (dict_keys (get_prop_exp_dict d))
  /\ (forall k p, (k, p) ∈ get_prop_exp_dict d ->
        p ∈ properties /\ prop_property p = k
        /\ prop_get p = Some "get_property_exp"
        /\ is_Some (_props d !! display_name p))
  /\ (forall p, p ∈ properties -> prop_get p = Some "get_property_exp" ->
        prop_property p ∈ dict_keys (get_prop_exp_dict d)).
Proof.
  intros d properties. subst d.
  destruct (configured_init dev_info model_info) as [-> ->].
  fold properties.
  destruct (init_properties_spec properties ∅ [])
    as (Hdom & _ & Hnodup & Hentries & _ & Hall).
  split; [apply Hnodup, NoDup_nil_2 |]. split; [| done].
  intros k p Hin. destruct (Hentries k p Hin) as [Hnil | (Hp & Hk & Hg)].
  - by apply elem_of_nil in Hnil.
  - repeat split; try done. apply Hdom. right.
    by apply list_elem_of_fmap_2.
Qed.

(** X26: the cache [__init__] seeds.  It has an entry exactly for the
    display names of the configured properties; when these names are
    pairwise distinct, each property's entry is its configured default,
    or [None] when it has no default. *)
Theorem init_cache (dev_info : SubDeviceInfo) (model_info : option ModelInfo) :
  let d := __init__ dev_info model_info in
  let properties :=
    default [] (mi_properties (default empty_model_info model_info)) in
  (forall k, is_Some (status d !! k) <-> k ∈ display_name <$> properties)
  /\ (NoDup (display_name <$> properties) ->
      forall p, p ∈ properties ->
        status d !! display_name p = Some (default VNone (prop_default p))).
Proof.
  intros d properties. subst d. unfold status.
  destruct (configured_init dev_info model_info) as [-> _].
  fold properties. split.
  - intros k. destruct (init_properties_spec properties ∅ []) as (Hdom & _).
    rewrite Hdom, lookup_empty. split; [| by right].
    intros [[x Hx] | Hk]; done.
  - intros Hnodup p Hp. by apply init_properties_defaults.
Qed.

Lemma init_batch_table_witness :
  prop_property Scenario.p2 = "p2"
  /\ is_Some (_props Scenario.sensor !! display_name Scenario.p2).
Proof.
  destruct (init_batch_table Scenario.discovery (Some Scenario.sensor_info))
    as (_ & Hentries & _).
  destruct (Hentries "p2" Scenario.p2) as (_ & Hname & _ & Hcache).
  - apply list_elem_of_further, list_elem_of_here.
  - by split.
Defined.

Lemma init_cache_witness :
  status Scenario.sensor !! "p1" = Some VNone.
Proof.
  apply (proj2 (init_cache Scenario.discovery (Some Scenario.sensor_info))
           ltac:(compute_done) Scenario.p1).
  apply list_elem_of_here.
Defined.

Section UpdateAfterInit.
Context {E : Type} `{Environment E}.
Implicit Types (w : World E).

(** The loop of [update] overwrites cache entries; it never deletes one. *)
Lemma update_loop_keeps (values : value) (props : list Property) (k : string) :
  forall (i : nat) w,
    is_Some (_props (self w) !! k) ->
    is_Some (_props (self (update_loop values props i w).2) !! k).
Proof.
  induction props as [| prop rest IH]; intros i w Hk; [done |].
  simpl. run.
  destruct (getitem values i) as [v |]; simpl; [| done].
  destruct (truthy (default VNone (prop_devisor prop))); simpl.
  - destruct (truediv v _) as [x |]; simpl; [| done].
    apply IH. simpl. rewrite lookup_insert. by case_decide.
  - apply IH. simpl. rewrite lookup_insert. by case_decide.
Qed.

(** X27: on a proxy as [__init__] built it, [update()] never changes the
    set of cache keys, whether it returns or raises: every name it may
    write under was seeded by the constructor. *)
Theorem update_keeps_cache_keys w (dev_info : SubDeviceInfo)
    (model_info : option ModelInfo) :
  self w = __init__ dev_info model_info ->
  forall k,
    is_Some (status (self (update w).2) !! k)
    <-> is_Some (status (self w) !! k).
Proof.
  intros Hinit k. unfold status.
  assert (Hseeded :
    k ∈ display_name <$> dict_values (get_prop_exp_dict (self w)) ->
    is_Some (_props (self w) !! k)).
  { intros Hk. apply list_elem_of_fmap in Hk as (p & -> & Hp).
    unfold dict_values in Hp.
    apply list_elem_of_fmap in Hp as ([k0 p0] & -> & Hentry).
    rewrite Hinit in *.
    destruct (configured_init dev_info model_info) as [Hprops Htable].
    rewrite Htable in Hentry. rewrite Hprops.
    destruct (init_properties_spec
                (default [] (mi_properties (default empty_model_info model_info)))
                ∅ [])
      as (Hdom & _ & _ & Hentries & _).
    destruct (Hentries k0 p0 Hentry) as [Hnil | (Hp & _)].
    - by apply elem_of_nil in Hnil.
    - apply Hdom. right. by apply list_elem_of_fmap_2. }
  unfold update. run.
  destruct (get_prop_exp_dict (self w)) as [| entry table]; [done |].
  pose proof (get_property_exp_effects (dict_keys (entry :: table)) w) as Hfetch.
  destruct (get_property_exp (dict_keys (entry :: table)) w)
    as [[values | ex] w1]; destruct Hfetch as (Hself & _); simpl in Hself.
  2: { simpl. by rewrite Hself. }
  pose proof (update_loop_frame values (dict_values (entry :: table)) 0%nat w1)
    as (_ & _ & _ & Hother).
  pose proof (update_loop_keeps values (dict_values (entry :: table)) k 0%nat w1)
    as Hkeeps.
  rewrite Hself in Hkeeps, Hother.
  destruct (decide (k ∈ display_name <$> dict_values (entry :: table)))
    as [Hk | Hk].
  - specialize (Hkeeps (Hseeded Hk)). specialize (Hseeded Hk).
    by destruct (update_loop values (dict_values (entry :: table)) 0 w1)
      as [[u | ?] w2].
  - specialize (Hother k Hk).
    destruct (update_loop values (dict_values (entry :: table)) 0 w1)
      as [[u | ?] w2]; simpl in *; by rewrite Hother.
Qed.
End UpdateAfterInit.

Lemma update_keeps_cache_keys_witness :
  let w := Scenario.world Scenario.sensor
             (Scenario.script true [Ok (VList [VList [VInt 5; VStr "x"]])] [] []) in
  is_Some (status (self (update w).2) !! "p2")
  <-> is_Some (status (self w) !! "p2").
Proof.
  intros w.
  exact (update_keeps_cache_keys w Scenario.discovery (Some Scenario.sensor_info)
           eq_refl "p2").
Defined.

Lemma register_callback_outcome_witness :
  let w := Scenario.world Scenario.observed (Scenario.script true [] [] []) in
  exists w',
    register_callback "ha" "on_ha_v2" w = (Ok VNone, w')
    /\ dict_get "ha" (_registered_callbacks (self w')) = Some "on_ha_v2"
    /\ dict_get "cli" (_registered_callbacks (self w')) = Some "on_cli"
    /\ dict_keys (_registered_callbacks (self w')) = ["ha"; "cli"].
Proof.
  intros w.
  destruct (register_callback_outcome "ha" "on_ha_v2" w)
    as (w' & Hrun & Hbound & Hother & Hkeys & _).
  exists w'. split; [exact Hrun |]. split; [exact Hbound |]. split.
  - rewrite (Hother "cli"); [reflexivity | discriminate].
  - exact Hkeys.
Defined.
